(** * MicroDocs: the note API (create / read / update / history) and its
      rate limiter, embedded from the route handlers

    Sources embedded here:
    - [src/app/api/notes/route.ts]                (POST, generateUniqueSlug)
    - [src/app/api/notes/[slug]/route.ts]         (GET, PUT, applyRateLimit)
    - [src/app/api/notes/[slug]/history/route.ts] (GET, applyRateLimit)
    - [src/app/notes/[slug]/history/page.tsx]     (DiffViewer)

    Conventions of the embedding.
    - A JavaScript string is a Rocq [string]; every character is read as one
      code unit below 256 (Latin-1).  Code units from 256 on are outside the
      model.
    - A [Date] is either a number of milliseconds or the invalid date that
      [new Date(s)] yields on an unparsable [s]; an absent ([undefined] or
      [null]) field is [None].
    - The MongoDB collection is the list of its documents; [findOne] and
      [updateOne] act on the first document that matches, [insertOne] adds
      one at the end.  The driver never fails in the model.
    - The clock, the random identifiers and the bcrypt salt are inputs of a
      request (records [GetEnv], [PutEnv], [PostEnv]); the external
      libraries are the fields of the class [Capabilities]. *)

From Stdlib Require Import ZArith Lia Ascii String.
From stdpp Require Import base decidable option list strings pretty gmap.

Local Open Scope string_scope.
Local Open Scope Z_scope.

(** ** JavaScript strings *)

(** [!!s] for a string: the empty string is the only falsy one. *)
Definition truthy (s : string) : bool :=
  match s with EmptyString => false | String _ _ => true end.

(** [!!x] for a value that is a string, [undefined] or [null]. *)
Definition truthy_opt (x : option string) : bool :=
  match x with Some s => truthy s | None => false end.

(** [a || b] on such values. *)
Definition js_or (a b : option string) : option string :=
  if truthy_opt a then a else b.

(** The class [\s] of a regular expression, which is also what [trim]
    removes: TAB, LF, VT, FF, CR, SPACE and NO-BREAK SPACE are its members
    below 256. *)
Definition is_space (c : ascii) : bool :=
  let n := nat_of_ascii c in
  ((9 <=? n) && (n <=? 13) || (n =? 32) || (n =? 160))%nat.

(** [String.prototype.toLowerCase], one code unit: A-Z and the Latin-1
    capitals U+00C0..U+00DE (but the sign U+00D7) move up by 32. *)
Definition toLowerCase_char (c : ascii) : ascii :=
  let n := nat_of_ascii c in
  if ((65 <=? n) && (n <=? 90)
      || (192 <=? n) && (n <=? 222) && negb (n =? 215))%nat
  then ascii_of_nat (n + 32) else c.

Fixpoint toLowerCase (s : string) : string :=
  match s with
  | EmptyString => EmptyString
  | String c r => String (toLowerCase_char c) (toLowerCase r)
  end.

Fixpoint trimStart (s : string) : string :=
  match s with
  | EmptyString => EmptyString
  | String c r => if is_space c then trimStart r else s
  end.

Fixpoint trimEnd (s : string) : string :=
  match s with
  | EmptyString => EmptyString
  | String c r =>
      let r' := trimEnd r in
      if is_space c && negb (truthy r') then EmptyString else String c r'
  end.

Definition trim (s : string) : string := trimEnd (trimStart s).

(** [s.replace(/\s+/g, '-')]: every maximal run of white space becomes one
    hyphen.  [in_run] tells that the previous character was white space. *)
Fixpoint replace_spaces (in_run : bool) (s : string) : string :=
  match s with
  | EmptyString => EmptyString
  | String c r =>
      if is_space c
      then (if in_run then replace_spaces true r
            else String "-" (replace_spaces true r))
      else String c (replace_spaces false r)
  end.

(** The class [[a-z0-9-]]. *)
Definition is_slug_char (c : ascii) : bool :=
  let n := nat_of_ascii c in
  ((97 <=? n) && (n <=? 122) || (48 <=? n) && (n <=? 57) || (n =? 45))%nat.

(** [s.replace(/[^a-z0-9-]/g, '')]. *)
Fixpoint strip_non_slug (s : string) : string :=
  match s with
  | EmptyString => EmptyString
  | String c r =>
      if is_slug_char c then String c (strip_non_slug r) else strip_non_slug r
  end.

(** [if (s.length > 50) s = s.substring(0, 50)]. *)
Definition truncate50 (s : string) : string :=
  if (50 <? String.length s)%nat then substring 0 50 s else s.

(** [authHeader.split(' ')]: the pieces between single spaces; [cur] is the
    piece being read, reversed. *)
Fixpoint split_space (cur : string) (s : string) : list string :=
  match s with
  | EmptyString => [String.rev cur]
  | String c r =>
      if Ascii.eqb c " " then String.rev cur :: split_space EmptyString r
      else split_space (String c cur) r
  end.

(** ** Data model *)

(** A [Date]: its time value in milliseconds, or the invalid date. *)
Inductive JsDate : Type :=
| ValidDate (ms : Z)
| InvalidDate.

#[global] Instance JsDate_eq_dec : EqDecision JsDate.
Proof. solve_decision. Defined.

(** [a <= b] and [a > b] on dates compare the time values; every comparison
    with the invalid date (NaN) is false. *)
Definition date_le (a b : JsDate) : bool :=
  match a, b with
  | ValidDate x, ValidDate y => x <=? y
  | _, _ => false
  end.

Definition date_gt (a b : JsDate) : bool :=
  match a, b with
  | ValidDate x, ValidDate y => y <? x
  | _, _ => false
  end.

(** [interface NoteContent]: one entry of a note's history. *)
Module NoteContent.
Record t : Type := mk { content : string; timestamp : Z }.
End NoteContent.

#[global] Instance NoteContent_eq_dec : EqDecision NoteContent.t.
Proof. solve_decision. Defined.

(** [interface Note] / [interface DbNote]: a stored document.  [createdAt]
    and [updatedAt] only ever hold [new Date()], so they are plain time
    values; [expiresAt] can hold any date, or be absent or [null]. *)
Module Note.
Record t : Type := mk {
  slug : string;
  title : string;
  content : string;
  passwordHash : option string;
  createdAt : Z;
  updatedAt : Z;
  expiresAt : option JsDate;
  history : list NoteContent.t
}.
End Note.

#[global] Instance Note_eq_dec : EqDecision Note.t.
Proof. solve_decision. Defined.

(** A JSON-like value, for the bodies handed to [NextResponse.json]. *)
#[warnings="-register-all"] Inductive JsVal : Type :=
| JUndefined
| JNull
| JBool (b : bool)
| JStr (s : string)
| JArr (items : list JsVal)
| JObj (fields : list (string * JsVal)).

Record Response : Type := mkResponse {
  status : Z;
  body : JsVal;
  headers : list (string * string)
}.

(** [NextResponse.json({ message }, { status })]. *)
Definition message_response (st : Z) (msg : string) : Response :=
  mkResponse st (JObj [("message", JStr msg)]) [].

(** The names of the fields of an object, in order. *)
Definition field_names (v : JsVal) : list string :=
  match v with JObj fs => map fst fs | _ => [] end.

(** [o.k] for an object [o]. *)
Fixpoint assoc (k : string) (fs : list (string * JsVal)) : option JsVal :=
  match fs with
  | [] => None
  | (k', v) :: r => if String.eqb k k' then Some v else assoc k r
  end.

Definition get_field (k : string) (v : JsVal) : option JsVal :=
  match v with JObj fs => assoc k fs | _ => None end.

(** The value that the caller of a handler gets for the value handed to
    [NextResponse.json]: what [JSON.stringify] writes, read back.  A member
    of an object whose value is [undefined] is left out; an item of an
    array that is [undefined] is written as [null]. *)
Fixpoint to_json (v : JsVal) : JsVal :=
  match v with
  | JArr items =>
      JArr (map (fun item =>
                   match to_json item with JUndefined => JNull | j => j end)
              items)
  | JObj fields =>
      JObj ((fix members (fs : list (string * JsVal)) : list (string * JsVal) :=
               match fs with
               | [] => []
               | (k, x) :: r =>
                   match to_json x with
                   | JUndefined => members r
                   | j => (k, j) :: members r
                   end
               end) fields)
  | _ => v
  end.

(** The body of an answer as its caller receives it. *)
Definition received (r : Response) : JsVal := to_json (body r).

(** ** The collection [db.collection('notes')] *)

(** [findOne({ slug })]. *)
Fixpoint findOne (notes : list Note.t) (s : string) : option Note.t :=
  match notes with
  | [] => None
  | n :: r => if String.eqb (Note.slug n) s then Some n else findOne r s
  end.

(** [updateOne({ slug }, updateDoc)], with the update document given as the
    function [f] it applies.  The result carries [matchedCount] and
    [modifiedCount]; a matched document that [f] leaves as it was is not
    counted as modified. *)
Fixpoint updateOne (notes : list Note.t) (s : string) (f : Note.t -> Note.t)
  : list Note.t * (Z * Z) :=
  match notes with
  | [] => ([], (0, 0))
  | n :: r =>
      if String.eqb (Note.slug n) s
      then (f n :: r, (1, if decide (f n = n) then 0 else 1))
      else let '(r', counts) := updateOne r s f in (n :: r', counts)
  end.

(** [insertOne(newNote)]. *)
Definition insertOne (notes : list Note.t) (n : Note.t) : list Note.t :=
  notes ++ [n].

(** ** External capabilities *)

(** The libraries the handlers call.  [nanoid size k] is the [k]-th
    identifier the generator hands out, [bcrypt_hash] takes its salt as an
    index, [parseDate] is [new Date(s)] and [toISOString] is
    [Date.prototype.toISOString] on a valid date. *)
Class Capabilities : Type := {
  nanoid : nat -> nat -> string;
  bcrypt_hash : string -> nat -> string;
  bcrypt_compare : string -> string -> bool;
  isProfane : string -> bool;
  parseDate : string -> JsDate;
  toISOString : Z -> string
}.

(** ** Identifier allocator: [generateUniqueSlug] *)

Definition NANOID_SLUG_LENGTH : nat := 8.
Definition MAX_ATTEMPTS : nat := 5.

(** Lines 49-53: the base slug of a proposal. *)
Definition baseSlug (proposedSlug : option string) : string :=
  let b :=
    match proposedSlug with
    | Some p =>
        let r := replace_spaces false (toLowerCase (trim p)) in
        if truthy r then r else ""
    | None => ""
    end in
  if truthy b then truncate50 (strip_non_slug b) else b.

Section Allocator.
Context {caps : Capabilities}.

(** Lines 61-66: the slug tried at one turn of the first loop, and the
    draw counter after it. *)
Definition currentSlug (base : string) (attempts k : nat) : string * nat :=
  if truthy base && negb (attempts =? 0)%nat
  then (base +:+ "-" +:+ nanoid 4 k, S k)
  else if negb (truthy base)
  then (nanoid NANOID_SLUG_LENGTH k, S k)
  else (base, k).

(** Lines 60-76: [while (!isUnique && attempts < MAX_ATTEMPTS)].  Every
    turn that does not finish adds one to [attempts], so the loop runs on
    [remaining = MAX_ATTEMPTS - attempts].  It returns the unique slug if
    it found one, and the draw counter. *)
Fixpoint attempt_loop (notes : list Note.t) (base : string)
    (remaining attempts k : nat) : option string * nat :=
  match remaining with
  | O => (None, k)
  | S remaining' =>
      let '(cur, k') := currentSlug base attempts k in
      match findOne notes cur with
      | None => (Some cur, k')
      | Some _ => attempt_loop notes base remaining' (S attempts) k'
      end
  end.

(** Lines 82-89: [while (!fallbackUnique)].  The loop has no bound in the
    source; [fuel] bounds it here and [None] means that the fuel ran
    out. *)
Fixpoint fallback_loop (notes : list Note.t) (fuel k : nat) : option string :=
  match fuel with
  | O => None
  | S fuel' =>
      let fallbackSlug := nanoid NANOID_SLUG_LENGTH k in
      match findOne notes fallbackSlug with
      | None => Some fallbackSlug
      | Some _ => fallback_loop notes fuel' (S k)
      end
  end.

Definition generateUniqueSlug (fuel : nat) (notes : list Note.t)
    (proposedSlug : option string) (k : nat) : option string :=
  let base := baseSlug proposedSlug in
  match attempt_loop notes base MAX_ATTEMPTS 0 k with
  | (Some finalSlug, _) => Some finalSlug
  | (None, k') => fallback_loop notes fuel k'
  end.
End Allocator.

(** ** Rate limiter *)

(** The value type of [rateLimitStore].  A count is a JavaScript number;
    it stays an exact integer far beyond any count a process reaches. *)
Record ClientData : Type := mkClientData { count : Z; lastReset : Z }.

Definition WINDOW_SIZE_MS : Z := 60 * 1000.

(** [MAX_REQUESTS_PER_WINDOW] of the three route files. *)
Definition MAX_REQUESTS_CREATE : Z := 5.
Definition MAX_REQUESTS_NOTE : Z := 10.
Definition MAX_REQUESTS_HISTORY : Z := 10.

(** What the handlers read of a request besides its body. *)
Record Request : Type := mkRequest {
  ip : option string;
  forwardedFor : option string;
  authorization : option string
}.

(** [req.ip || req.headers.get('x-forwarded-for') || 'anonymous']. *)
Definition clientKey (req : Request) : string :=
  match js_or (js_or (ip req) (forwardedFor req)) (Some "anonymous") with
  | Some k => k
  | None => "anonymous"
  end.

(** [Math.ceil(x / 1000)]. *)
Definition ceil_div_1000 (x : Z) : Z := - ((- x) / 1000).

Definition tooManyRequests (timeLeft : Z) : Response :=
  mkResponse 429
    (JObj [("message",
            JStr ("Too many requests. Please try again in "
                  +:+ pretty timeLeft +:+ " seconds."))])
    [("Retry-After", pretty timeLeft)].

(** The record of a client after the window check and the increment
    (lines 30-38 of the note route). *)
Definition bump (old : option ClientData) (now : Z) : ClientData :=
  let clientData := default (mkClientData 0 now) old in
  let clientData :=
    if WINDOW_SIZE_MS <? now - lastReset clientData
    then mkClientData 0 now else clientData in
  mkClientData (count clientData + 1) (lastReset clientData).

(** [applyRateLimit], with the maximum of the calling route; POST has the
    same statements inline.  [None] is the source's [null]. *)
Definition applyRateLimit (maxRequests : Z) (store : gmap string ClientData)
    (req : Request) (now : Z) : gmap string ClientData * option Response :=
  let key := clientKey req in
  let clientData := bump (store !! key) now in
  let store' := <[key := clientData]> store in
  if maxRequests <? count clientData
  then (store',
        Some (tooManyRequests
                (ceil_div_1000 (lastReset clientData + WINDOW_SIZE_MS - now))))
  else (store', None).

(** A run of requests of one client against one store, each at its own
    time: the stores after it and the answers, oldest first. *)
Fixpoint applyRateLimit_run (maxRequests : Z) (store : gmap string ClientData)
    (req : Request) (times : list Z)
  : gmap string ClientData * list (option Response) :=
  match times with
  | [] => (store, [])
  | now :: later =>
      let '(store', r) := applyRateLimit maxRequests store req now in
      let '(store'', rs) := applyRateLimit_run maxRequests store' req later in
      (store'', r :: rs)
  end.

(** ** The server *)

(** The collection and the three module-level [rateLimitStore] maps. *)
Record Server : Type := mkServer {
  notes : list Note.t;
  createLimits : gmap string ClientData;
  noteLimits : gmap string ClientData;
  historyLimits : gmap string ClientData
}.

(** [!!note.passwordHash]. *)
Definition isProtected (note : Note.t) : bool :=
  truthy_opt (Note.passwordHash note).

(** [note.expiresAt && note.expiresAt <= new Date()]. *)
Definition expired (note : Note.t) (now : Z) : bool :=
  match Note.expiresAt note with
  | Some d => date_le d (ValidDate now)
  | None => false
  end.

(** [authHeader?.split(' ')[1]]. *)
Definition bearerToken (req : Request) : option string :=
  match authorization req with
  | Some authHeader => nth_error (split_space "" authHeader) 1
  | None => None
  end.

(** The answer of a [catch] block. *)
Definition caught (msg err : string) : Response :=
  mkResponse 500 (JObj [("message", JStr msg); ("error", JStr err)]) [].

Definition profanity_response : Response :=
  mkResponse 400
    (JObj [("message",
            JStr "Profanity detected in title or content. Please remove inappropriate language.");
           ("error", JStr "Profanity detected")])
    [].

(** ** Request bodies and clock readings *)

(** The [expiresAt] of an update body: left out ([undefined]), [null], or a
    string. *)
Inductive Directive : Type :=
| Omitted
| Null
| Text (s : string).

(** The body of a PUT, after [req.json()]. *)
Module PutBody.
Record t : Type := mk {
  title : option string;
  content : option string;
  currentPassword : option string;
  newPassword : option string;
  expiresAt : Directive
}.
End PutBody.

(** The body of a POST, after [req.json()]. *)
Module PostBody.
Record t : Type := mk {
  title : option string;
  content : option string;
  password : option string;
  customSlug : option string;
  expiresAt : option string
}.
End PostBody.

(** The clock readings of a GET: [Date.now()] in the rate limiter and
    [new Date()] in the expiration check. *)
Record GetEnv : Type := mkGetEnv { get_limit_now : Z; get_now : Z }.

(** The clock readings of a PUT, in the order the handler takes them, and
    the salt of [bcrypt.hash]. *)
Record PutEnv : Type := mkPutEnv {
  put_limit_now : Z;
  put_expiry_now : Z;
  put_updatedAt : Z;
  put_directive_now : Z;
  put_history_now : Z;
  put_salt : nat
}.

(** The inputs of a POST: the reading of [Date.now()], the bound on the
    fallback loop, the draw counter of [nanoid], the salt,
    [noteCreationTime] and the [insertedId] of the driver. *)
Record PostEnv : Type := mkPostEnv {
  post_limit_now : Z;
  post_fuel : nat;
  post_draw : nat;
  post_salt : nat;
  noteCreationTime : Z;
  insertedId : string
}.

Section Handlers.
Context {caps : Capabilities}.

(** ** Read: GET of [notes/[slug]/route.ts] *)

(** Lines 108-115, the object [noteResponse]; [None] when [toISOString]
    throws on an invalid [expiresAt]. *)
Definition noteResponse (note : Note.t) (isProtected : bool) : option JsVal :=
  match Note.expiresAt note with
  | Some InvalidDate => None
  | e =>
      Some (JObj [("title", JStr (Note.title note));
                  ("content", JStr (Note.content note));
                  ("isProtected", JBool isProtected);
                  ("createdAt", JStr (toISOString (Note.createdAt note)));
                  ("updatedAt", JStr (toISOString (Note.updatedAt note)));
                  ("expiresAt",
                   match e with
                   | Some (ValidDate t) => JStr (toISOString t)
                   | _ => JUndefined
                   end)])
  end.

(** Lines 108-117: the answer once the caller is let through. *)
Definition GET_respond (note : Note.t) : Response :=
  match noteResponse note (isProtected note) with
  | Some v => mkResponse 200 (JObj [("note", v)]) []
  | None => caught "Failed to retrieve note." "Invalid time value"
  end.

(** Lines 77-117: the [try] block. *)
Definition GET_body (notes : list Note.t) (req : Request) (slug : string)
    (now : Z) : Response :=
  match findOne notes slug with
  | None => message_response 404 "Note not found."
  | Some note =>
      if expired note now then message_response 404 "Note has expired."
      else if isProtected note then
        match bearerToken req with
        | Some token =>
            if negb (truthy token)
            then message_response 401 "Password required."
            else if negb (bcrypt_compare token
                            (default "" (Note.passwordHash note)))
            then message_response 401 "Invalid password."
            else GET_respond note
        | None => message_response 401 "Password required."
        end
      else GET_respond note
  end.

Definition GET (srv : Server) (req : Request) (slug : string) (env : GetEnv)
  : Server * Response :=
  let '(limits, rateLimitResponse) :=
    applyRateLimit MAX_REQUESTS_NOTE (noteLimits srv) req (get_limit_now env) in
  let srv' := mkServer (notes srv) (createLimits srv) limits (historyLimits srv) in
  match rateLimitResponse with
  | Some r => (srv', r)
  | None => (srv', GET_body (notes srv) req slug (get_now env))
  end.

(** ** History read: GET of [notes/[slug]/history/route.ts] *)

(** Lines 113-116. *)
Definition historyResponse (entries : list NoteContent.t) : list JsVal :=
  map (fun entry =>
         JObj [("content", JStr (NoteContent.content entry));
               ("timestamp", JStr (toISOString (NoteContent.timestamp entry)))])
      entries.

(** Lines 112-125. *)
Definition history_respond (note : Note.t) : Response :=
  mkResponse 200
    (JObj [("title", JStr (Note.title note));
           ("history", JArr (historyResponse (Note.history note)));
           ("isProtected", JBool (isProtected note))])
    [].

Definition history_GET_body (notes : list Note.t) (req : Request)
    (slug : string) (now : Z) : Response :=
  match findOne notes slug with
  | None => message_response 404 "Note not found."
  | Some note =>
      if expired note now then message_response 404 "Note has expired."
      else if isProtected note then
        match bearerToken req with
        | Some token =>
            if negb (truthy token)
            then message_response 401 "Password required."
            else if negb (bcrypt_compare token
                            (default "" (Note.passwordHash note)))
            then message_response 401 "Invalid password."
            else history_respond note
        | None => message_response 401 "Password required."
        end
      else history_respond note
  end.

Definition history_GET (srv : Server) (req : Request) (slug : string)
    (env : GetEnv) : Server * Response :=
  let '(limits, rateLimitResponse) :=
    applyRateLimit MAX_REQUESTS_HISTORY (historyLimits srv) req
      (get_limit_now env) in
  let srv' := mkServer (notes srv) (createLimits srv) (noteLimits srv) limits in
  match rateLimitResponse with
  | Some r => (srv', r)
  | None => (srv', history_GET_body (notes srv) req slug (get_now env))
  end.

(** ** Update: PUT of [notes/[slug]/route.ts] *)

(** What lines 207-219 do to [updateDoc.$set.expiresAt]: leave it out, set
    it, or answer 400 instead. *)
Inductive ExpiresUpdate : Type :=
| Keep
| SetTo (e : option JsDate)
| Reject.

Definition resolveExpiresAt (directive : Directive) (now : Z) : ExpiresUpdate :=
  match directive with
  | Null => SetTo None
  | Text s =>
      if truthy s then
        let expirationDate := parseDate s in
        if date_le expirationDate (ValidDate now) then Reject
        else SetTo (Some expirationDate)
      else Keep
  | Omitted => Keep
  end.

(** [updateDoc] as the function it applies to the stored document: the
    [$set] of title, content and [updatedAt], of [passwordHash] and
    [expiresAt] when they are there, and the [$push] when it is there. *)
Definition updateDoc (title content : string) (updatedAt : Z)
    (newHash : option string) (e : ExpiresUpdate)
    (push : option NoteContent.t) (stored : Note.t) : Note.t :=
  Note.mk
    (Note.slug stored)
    title
    content
    (match newHash with Some h => Some h | None => Note.passwordHash stored end)
    (Note.createdAt stored)
    updatedAt
    (match e with SetTo x => x | _ => Note.expiresAt stored end)
    (match push with
     | Some entry => Note.history stored ++ [entry]
     | None => Note.history stored
     end).

(** Line 242, the last conjunct:
    [expiresAt === undefined || note.expiresAt?.toISOString() === expiresAt];
    [None] when [toISOString] throws. *)
Definition sameExpiresAt (note : Note.t) (directive : Directive) : option bool :=
  match directive with
  | Omitted => Some true
  | Null =>
      match Note.expiresAt note with
      | Some InvalidDate => None
      | _ => Some false
      end
  | Text s =>
      match Note.expiresAt note with
      | Some InvalidDate => None
      | Some (ValidDate t) => Some (String.eqb (toISOString t) s)
      | None => Some false
      end
  end.

(** Lines 203-205: the digest of a new password, if one was sent. *)
Definition newPasswordHash (body : PutBody.t) (env : PutEnv) : option string :=
  match PutBody.newPassword body with
  | Some p => if truthy p then Some (bcrypt_hash p (put_salt env)) else None
  | None => None
  end.

(** Lines 221-230: the [$push] of a history entry, kept when the content
    sent is not ([!==]) the content of the note read, deleted otherwise. *)
Definition historyPush (note : Note.t) (content : string) (env : PutEnv)
  : option NoteContent.t :=
  if negb (String.eqb (Note.content note) content)
  then Some (NoteContent.mk content (put_history_now env))
  else None.

(** Lines 193-246: steps 3 and 4, once validation, lookup and
    authentication are through.  [note] is the document read at step 1. *)
Definition PUT_apply (notes : list Note.t) (slug : string) (note : Note.t)
    (title content : string) (body : PutBody.t) (env : PutEnv)
  : list Note.t * Response :=
  match resolveExpiresAt (PutBody.expiresAt body) (put_directive_now env) with
  | Reject =>
      (notes, message_response 400 "Expiration date must be in the future.")
  | e =>
      let '(notes', (matchedCount, modifiedCount)) :=
        updateOne notes slug
          (updateDoc title content (put_updatedAt env)
             (newPasswordHash body env) e (historyPush note content env)) in
      if matchedCount =? 0
      then (notes', message_response 404 "Note not found for update.")
      else if (modifiedCount =? 0)
              && String.eqb (Note.content note) content
              && negb (truthy_opt (PutBody.newPassword body))
      then match sameExpiresAt note (PutBody.expiresAt body) with
           | Some true =>
               (notes', message_response 200 "No changes detected to update.")
           | Some false =>
               (notes', message_response 200 "Note updated successfully!")
           | None => (notes', caught "Failed to update note." "Invalid time value")
           end
      else (notes', message_response 200 "Note updated successfully!")
  end.

(** Lines 140-246: the [try] block. *)
Definition PUT_body (notes : list Note.t) (slug : string) (body : PutBody.t)
    (env : PutEnv) : list Note.t * Response :=
  match PutBody.title body, PutBody.content body with
  | Some title, Some content =>
      if negb (truthy title) || negb (truthy content)
      then (notes, message_response 400 "Title and content are required for update.")
      else if isProfane (title +:+ " " +:+ content)
      then (notes, profanity_response)
      else
        match findOne notes slug with
        | None => (notes, message_response 404 "Note not found.")
        | Some note =>
            if expired note (put_expiry_now env)
            then (notes, message_response 400 "Cannot update an expired note.")
            else if isProtected note then
              match PutBody.currentPassword body with
              | Some currentPassword =>
                  if negb (truthy currentPassword)
                  then (notes, message_response 401
                                 "Current password required to update this note.")
                  else if negb (bcrypt_compare currentPassword
                                  (default "" (Note.passwordHash note)))
                  then (notes, message_response 401 "Incorrect password.")
                  else PUT_apply notes slug note title content body env
              | None =>
                  (notes, message_response 401
                            "Current password required to update this note.")
              end
            else PUT_apply notes slug note title content body env
        end
  | _, _ =>
      (notes, message_response 400 "Title and content are required for update.")
  end.

Definition PUT (srv : Server) (req : Request) (slug : string)
    (body : PutBody.t) (env : PutEnv) : Server * Response :=
  let '(limits, rateLimitResponse) :=
    applyRateLimit MAX_REQUESTS_NOTE (noteLimits srv) req (put_limit_now env) in
  match rateLimitResponse with
  | Some r =>
      (mkServer (notes srv) (createLimits srv) limits (historyLimits srv), r)
  | None =>
      let '(notes', r) := PUT_body (notes srv) slug body env in
      (mkServer notes' (createLimits srv) limits (historyLimits srv), r)
  end.

(** ** Create: POST of [notes/route.ts] *)

(** Lines 119-192: the [try] block.  [None]: the fallback loop of the
    allocator did not end within [post_fuel]. *)
Definition POST_body (notes : list Note.t) (body : PostBody.t) (env : PostEnv)
  : option (list Note.t * Response) :=
  match PostBody.title body, PostBody.content body with
  | Some title, Some content =>
      if negb (truthy title) || negb (truthy content)
      then Some (notes, message_response 400 "Title and content are required.")
      else if isProfane (title +:+ " " +:+ content)
      then Some (notes, profanity_response)
      else
        match generateUniqueSlug (post_fuel env) notes
                (js_or (PostBody.customSlug body) (Some title))
                (post_draw env) with
        | None => None
        | Some finalSlug =>
            let passwordHash :=
              match PostBody.password body with
              | Some p =>
                  if truthy p then Some (bcrypt_hash p (post_salt env)) else None
              | None => None
              end in
            let now := noteCreationTime env in
            let newNote (e : option JsDate) :=
              Note.mk finalSlug title content passwordHash now now e
                [NoteContent.mk content now] in
            let created (e : option JsDate) :=
              Some (insertOne notes (newNote e),
                    mkResponse 201
                      (JObj [("message", JStr "Note created successfully!");
                             ("slug", JStr finalSlug);
                             ("id", JStr (insertedId env))])
                      []) in
            match PostBody.expiresAt body with
            | Some s =>
                if truthy s then
                  let expirationDate := parseDate s in
                  if date_gt expirationDate (ValidDate now)
                  then created (Some expirationDate)
                  else Some (notes, message_response 400
                                      "Expiration date must be in the future.")
                else created None
            | None => created None
            end
        end
  | _, _ => Some (notes, message_response 400 "Title and content are required.")
  end.

Definition POST (srv : Server) (req : Request) (body : PostBody.t)
    (env : PostEnv) : option (Server * Response) :=
  let '(limits, rateLimitResponse) :=
    applyRateLimit MAX_REQUESTS_CREATE (createLimits srv) req
      (post_limit_now env) in
  match rateLimitResponse with
  | Some r =>
      Some (mkServer (notes srv) limits (noteLimits srv) (historyLimits srv), r)
  | None =>
      match POST_body (notes srv) body env with
      | Some (notes', r) =>
          Some (mkServer notes' limits (noteLimits srv) (historyLimits srv), r)
      | None => None
      end
  end.

End Handlers.

(** ** Specification-side definitions *)

(** The normalization of a proposal in the words of the specification:
    lowercase, white-space runs to hyphens, strip to [[a-z0-9-]], truncate
    to 50 characters. *)
Definition normalize_as_specified (p : string) : string :=
  truncate50 (strip_non_slug (replace_spaces false (toLowerCase p))).

(** The same after [trim]. *)
Definition normalize_trimmed (p : string) : string :=
  normalize_as_specified (trim p).

(** The first index from [a], among [r] of them, at which [free] holds. *)
Fixpoint first_free (free : nat -> bool) (a r : nat) : option nat :=
  match r with
  | O => None
  | S r' => if free a then Some a else first_free free (S a) r'
  end.

Section Candidates.
Context {caps : Capabilities}.

(** The [i]-th slug that [generateUniqueSlug] tries, counting from 0, when
    the draw counter starts at [k]: with a base, the base itself, then four
    times the base with a suffix of 4 characters, then identifiers of 8
    characters; without a base, identifiers of 8 characters throughout. *)
Definition candidate (base : string) (k i : nat) : string :=
  if truthy base then
    match i with
    | O => base
    | S j =>
        if (i <? MAX_ATTEMPTS)%nat then base +:+ "-" +:+ nanoid 4 (k + j)
        else nanoid NANOID_SLUG_LENGTH (k + j)
    end
  else nanoid NANOID_SLUG_LENGTH (k + i).

(** The draw counter when the [a]-th slug is about to be tried. *)
Definition counter_at (base : string) (k a : nat) : nat :=
  if truthy base then (k + pred a)%nat else (k + a)%nat.

Definition is_free (notes : list Note.t) (s : string) : bool :=
  match findOne notes s with None => true | Some _ => false end.

End Candidates.

(** The limiter turned the request away: it answered, with status 429. *)
Definition rejected (r : option Response) : bool :=
  match r with Some x => status x =? 429 | None => false end.

(** The record of a client as the limiter takes it up at time [now]: a
    fresh one for an unknown client, a reset one when more than a window
    has passed since [lastReset]. *)
Definition taken_up (old : option ClientData) (now : Z) : ClientData :=
  match old with
  | Some d => if WINDOW_SIZE_MS <? now - lastReset d then mkClientData 0 now else d
  | None => mkClientData 0 now
  end.

(** A handler is guarded by the limiter with [maxRequests] on the store
    [before]: it leaves the limiter's store behind and, when the limiter
    answers, that answer is the handler's. *)
Definition guarded (maxRequests : Z) (before after : gmap string ClientData)
    (req : Request) (now : Z) (answer : Response) : Prop :=
  after = fst (applyRateLimit maxRequests before req now)
  /\ forall r : Response,
       snd (applyRateLimit maxRequests before req now) = Some r -> answer = r.

Section Gates.
Context {caps : Capabilities}.

(** The access gate in one place: an unprotected note lets every caller
    through; a protected one lets through a credential that is there and
    that [bcrypt.compare] accepts against the stored digest. *)
Definition authorized (note : Note.t) (credential : option string) : bool :=
  if isProtected note then
    match credential with
    | Some c => truthy c && bcrypt_compare c (default "" (Note.passwordHash note))
    | None => false
    end
  else true.

(** A credential that is there: a non-empty string. *)
Definition supplied (credential : option string) : bool := truthy_opt credential.

(** The document that an update which is let through and not rejected
    leaves in the collection in place of [note]. *)
Definition updated (note : Note.t) (title content : string) (body : PutBody.t)
    (env : PutEnv) : Note.t :=
  updateDoc title content (put_updatedAt env) (newPasswordHash body env)
    (resolveExpiresAt (PutBody.expiresAt body) (put_directive_now env))
    (historyPush note content env) note.

(** An update reaches steps 3 and 4 on [note]: the limiter lets it pass,
    title and content are non-empty and not offensive, [note] is the stored
    document of the slug, it has not expired and the caller is let
    through. *)
Definition update_admitted (srv : Server) (req : Request) (slug : string)
    (body : PutBody.t) (env : PutEnv) (note : Note.t) (title content : string)
  : Prop :=
  snd (applyRateLimit MAX_REQUESTS_NOTE (noteLimits srv) req (put_limit_now env))
  = None
  /\ PutBody.title body = Some title /\ truthy title = true
  /\ PutBody.content body = Some content /\ truthy content = true
  /\ isProfane (title +:+ " " +:+ content) = false
  /\ findOne (notes srv) slug = Some note
  /\ expired note (put_expiry_now env) = false
  /\ authorized note (PutBody.currentPassword body) = true.

(** A read reaches its answer on [note]. *)
Definition read_admitted (srv : Server) (req : Request) (slug : string)
    (env : GetEnv) (note : Note.t) : Prop :=
  snd (applyRateLimit MAX_REQUESTS_NOTE (noteLimits srv) req (get_limit_now env))
  = None
  /\ findOne (notes srv) slug = Some note
  /\ expired note (get_now env) = false.

End Gates.

(** [note] with another stored digest. *)
Definition with_passwordHash (note : Note.t) (h : option string) : Note.t :=
  Note.mk (Note.slug note) (Note.title note) (Note.content note) h
    (Note.createdAt note) (Note.updatedAt note) (Note.expiresAt note)
    (Note.history note).


(** ** Diff presentation: [DiffViewer] of [notes/[slug]/history/page.tsx] *)

(** The kind of a segment, as the specification names it. *)
Inductive Kind : Type :=
| Equal
| Insert
| Delete.

Definition Kind_eqb (a b : Kind) : bool :=
  match a, b with
  | Equal, Equal | Insert, Insert | Delete, Delete => true
  | _, _ => false
  end.

(** The number of characters an edit script inserts or deletes. *)
Fixpoint edits (ops : list (Kind * ascii)) : nat :=
  match ops with
  | [] => O
  | (Equal, _) :: r => edits r
  | _ :: r => S (edits r)
  end.

Fixpoint inserts (b : string) : list (Kind * ascii) :=
  match b with
  | EmptyString => []
  | String y b' => (Insert, y) :: inserts b'
  end.

Fixpoint deletes (a : string) : list (Kind * ascii) :=
  match a with
  | EmptyString => []
  | String x a' => (Delete, x) :: deletes a'
  end.

(** Modelled from the spec: the functions [diff_main] and
    [diff_cleanupSemantic] of the library diff-match-patch, which
    [DiffViewer] calls, are not in the repository.  The specification asks
    for a minimal-edit-script-style partition of the two texts and leaves
    the algorithm open; [edit_script] is a shortest script of character
    edits (equal characters are kept, otherwise the cheaper of deleting
    from the old text and inserting from the new one is taken). *)
Fixpoint edit_script (a : string) : string -> list (Kind * ascii) :=
  match a with
  | EmptyString => inserts
  | String x a' =>
      fix against (b : string) : list (Kind * ascii) :=
        match b with
        | EmptyString => deletes a
        | String y b' =>
            if Ascii.eqb x y then (Equal, x) :: edit_script a' b'
            else
              let d := (Delete, x) :: edit_script a' b in
              let i := (Insert, y) :: against b' in
              if (edits d <=? edits i)%nat then d else i
        end
  end.

(** Neighbouring characters of one kind make one segment. *)
Fixpoint group (ops : list (Kind * ascii)) : list (Kind * string) :=
  match ops with
  | [] => []
  | (k, c) :: r =>
      match group r with
      | (k', s) :: r' =>
          if Kind_eqb k k' then (k, String c s) :: r'
          else (k, String c EmptyString) :: (k', s) :: r'
      | [] => [(k, String c EmptyString)]
      end
  end.

(** Modelled from the spec: [diff(oldText, newText)], the ordered sequence
    of [{kind, text}] that the two library calls of [DiffViewer] leave in
    [diffs]. *)
Definition diff (oldText newText : string) : list (Kind * string) :=
  group (edit_script oldText newText).

(** The text of the segments whose kind [keep] accepts, in order. *)
Fixpoint segments_text (keep : Kind -> bool) (segs : list (Kind * string))
  : string :=
  match segs with
  | [] => EmptyString
  | (k, s) :: r =>
      if keep k then s +:+ segments_text keep r else segments_text keep r
  end.

Definition in_old (k : Kind) : bool :=
  match k with Insert => false | _ => true end.

Definition in_new (k : Kind) : bool :=
  match k with Delete => false | _ => true end.

(** The number by which the library tags a segment: [DIFF_EQUAL],
    [DIFF_INSERT], [DIFF_DELETE]. *)
Definition diff_type (k : Kind) : Z :=
  match k with Equal => 0 | Insert => 1 | Delete => -1 end.

(** What [DiffViewer] renders for one segment (lines 62-81). *)
Inductive Element : Type :=
| span (text : string)
| del (text : string)
| ins (text : string).

Definition render (d : Z * string) : Element :=
  let '(type, text) := d in
  if type =? 0 then span text
  else if type =? -1 then del text
  else ins text.

(** Lines 56-85. *)
Definition DiffViewer (oldText newText : string) : list Element :=
  map render (map (fun seg => (diff_type (fst seg), snd seg))
                (diff oldText newText)).

(** The text of the elements shown for the old text ([span] and [del]) and
    for the new one ([span] and [ins]). *)
Fixpoint shown_old (els : list Element) : string :=
  match els with
  | [] => EmptyString
  | span s :: r | del s :: r => s +:+ shown_old r
  | ins _ :: r => shown_old r
  end.

Fixpoint shown_new (els : list Element) : string :=
  match els with
  | [] => EmptyString
  | span s :: r | ins s :: r => s +:+ shown_new r
  | del _ :: r => shown_new r
  end.


(** ** The server as a state machine *)

(** One request to one of the four handlers. *)
Inductive Op : Type :=
| OpGET (req : Request) (slug : string) (env : GetEnv)
| OpHistoryGET (req : Request) (slug : string) (env : GetEnv)
| OpPUT (req : Request) (slug : string) (body : PutBody.t) (env : PutEnv)
| OpPOST (req : Request) (body : PostBody.t) (env : PostEnv).

Section Machine.
Context {caps : Capabilities}.

(** The server after a request, and the answer; [None] when the allocator
    of a create runs out of fuel. *)
Definition step (srv : Server) (op : Op) : option (Server * Response) :=
  match op with
  | OpGET req slug env => Some (GET srv req slug env)
  | OpHistoryGET req slug env => Some (history_GET srv req slug env)
  | OpPUT req slug body env => Some (PUT srv req slug body env)
  | OpPOST req body env => POST srv req body env
  end.

(** The server after a sequence of requests, handled one after the other. *)
Fixpoint run (srv : Server) (ops : list Op) : option Server :=
  match ops with
  | [] => Some srv
  | op :: later =>
      match step srv op with
      | Some (srv', _) => run srv' later
      | None => None
      end
  end.

End Machine.

(** The server of a process that has just started. *)
Definition empty_server : Server := mkServer [] ∅ ∅ ∅.

(** No two documents of the collection have the same slug. *)
Definition slugs_unique (notes : list Note.t) : Prop :=
  NoDup (map Note.slug notes).

(** The content of a note is the content of the last entry of its
    history. *)
Definition tracks_content (n : Note.t) : Prop :=
  exists entry : NoteContent.t,
    last (Note.history n) = Some entry
    /\ NoteContent.content entry = Note.content n.

(** [after] holds every slug of [before], with the same creation time and a
    history that continues the old one. *)
Definition grown_from (before after : list Note.t) : Prop :=
  forall (s : string) (n : Note.t),
    findOne before s = Some n ->
    exists n' : Note.t,
      findOne after s = Some n'
      /\ Note.createdAt n' = Note.createdAt n
      /\ Note.history n `prefix_of` Note.history n'.

(** Every character of [s] satisfies [p]. *)
Fixpoint string_forall (p : ascii -> bool) (s : string) : bool :=
  match s with
  | EmptyString => true
  | String c r => p c && string_forall p r
  end.

(** The part of [s] before its first space. *)
Fixpoint before_space (s : string) : string :=
  match s with
  | EmptyString => EmptyString
  | String c r => if Ascii.eqb c " " then EmptyString else String c (before_space r)
  end.


(** ** The create form: [sanitizeSlug] of [app/page.tsx] *)

(** Lines 116-121: what the form keeps of the text typed into the
    custom-slug field. *)
Definition sanitizeSlug (input : string) : string :=
  strip_non_slug (replace_spaces false (toLowerCase input)).


(** ** Sample capabilities and data, for the concrete runs below *)

Module Sample.

(** Identifiers that differ from draw to draw. *)
Definition nanoid (size k : nat) : string :=
  substring 0 size (pretty k +:+ "________").

Definition bcrypt_hash (p : string) (salt : nat) : string :=
  "$2a$10$" +:+ pretty salt +:+ "$" +:+ p.

(** The text after the third dollar sign of a digest. *)
Fixpoint after_dollars (n : nat) (s : string) : string :=
  match n, s with
  | O, _ => s
  | S n', String c r =>
      if Ascii.eqb c "$" then after_dollars n' r else after_dollars n r
  | S _, EmptyString => EmptyString
  end.

Definition bcrypt_compare (p digest : string) : bool :=
  String.eqb (after_dollars 4 digest) p.

Definition y2000 : Z := 946684800000.
Definition y2010 : Z := 1262304000000.
Definition y2020 : Z := 1577836800000.
Definition y2030 : Z := 1893456000000.

(** The four dates the samples use; the epoch stands for any other. *)
Definition calendar : list (string * Z) :=
  [("2000-01-01T00:00:00.000Z", y2000); ("2010-01-01T00:00:00.000Z", y2010);
   ("2020-01-01T00:00:00.000Z", y2020); ("2030-01-01T00:00:00.000Z", y2030)].

Definition parseDate (s : string) : JsDate :=
  match List.find (fun e => String.eqb (fst e) s) calendar with
  | Some e => ValidDate (snd e)
  | None => InvalidDate
  end.

Definition toISOString (t : Z) : string :=
  match List.find (fun e => snd e =? t) calendar with
  | Some e => fst e
  | None => "1970-01-01T00:00:00.000Z"
  end.

Definition caps : Capabilities :=
  Build_Capabilities nanoid bcrypt_hash bcrypt_compare (fun _ => false)
    parseDate toISOString.

(** The time of the sample requests. *)
Definition today : Z := y2020.

(** A public note that expired in 2010, a protected note, and a public one
    that expires in 2030. *)
Definition old_note : Note.t :=
  Note.mk "old" "T" "A" None y2000 y2000 (Some (ValidDate y2010))
    [NoteContent.mk "A" y2000].

Definition locked_note : Note.t :=
  Note.mk "locked" "T" "A" (Some (bcrypt_hash "s3cret" 7))
    y2010 y2010 None [NoteContent.mk "A" y2010].

Definition open_note : Note.t :=
  Note.mk "open" "T" "A" None y2010 y2010
    (Some (ValidDate y2030)) [NoteContent.mk "A" y2010].

Definition server : Server :=
  mkServer [old_note; locked_note; open_note] ∅ ∅ ∅.

Definition anyone : Request := mkRequest (Some "10.0.0.1") None None.

Definition bearer (p : string) : Request :=
  mkRequest (Some "10.0.0.1") None (Some ("Bearer " +:+ p)).

Definition get_env : GetEnv := mkGetEnv today today.

Definition put_env : PutEnv := mkPutEnv today today today today today 3.

Definition post_env : PostEnv := mkPostEnv today 10 0 3 today "id1".

Definition put_body (title content : string) (pw : option string)
    (d : Directive) : PutBody.t :=
  PutBody.mk (Some title) (Some content) pw None d.

End Sample.

Section UpdateOf.
Context {caps : Capabilities}.

(** The function that an update which read [note] hands to [updateOne]. *)
Definition update_of (note : Note.t) (title content : string)
    (body : PutBody.t) (env : PutEnv) : Note.t -> Note.t :=
  updateDoc title content (put_updatedAt env) (newPasswordHash body env)
    (resolveExpiresAt (PutBody.expiresAt body) (put_directive_now env))
    (historyPush note content env).

End UpdateOf.

(** A session against a fresh server: a note is created with a password,
    edited twice, restored to its first content, read, and a second note
    is created under the same title. *)
Module Session.

Definition create (title content : string) (pw : option string) : Op :=
  OpPOST Sample.anyone (PostBody.mk (Some title) (Some content) pw None None)
    Sample.post_env.

Definition edit (slug content : string) (pw : string) : Op :=
  OpPUT Sample.anyone slug (Sample.put_body "Plan" content (Some pw) Omitted)
    Sample.put_env.

Definition ops : list Op :=
  [create "Plan" "A" (Some "pw");
   edit "plan" "B" "pw";
   edit "plan" "B" "pw";
   edit "plan" "A" "pw";
   OpGET (Sample.bearer "pw") "plan" Sample.get_env;
   create "Plan" "C" None].

End Session.


(** ** The pages *)





(** How a submit handler of a form ends: with an error message shown, with
    an exception that nothing catches, or with a request sent. *)
Inductive FormOutcome (A : Type) : Type :=
| FormError (msg : string)
| FormThrew
| FormSend (body : A).
Arguments FormError {A} msg.
Arguments FormThrew {A}.
Arguments FormSend {A} body.

Section Forms.
Context {caps : Capabilities}.

(** [handleSubmit] of the create form ([app/page.tsx], lines 50-114), up to
    the request it sends.  The fields are the strings of the form's state;
    [JSON.stringify] leaves an [undefined] expiration out of the body. *)
Definition handleSubmit (title content customSlug password expiresAt : string)
    (now : Z) : FormOutcome PostBody.t :=
  if isProfane (title +:+ " " +:+ content)
  then FormError "Profanity detected! Please remove inappropriate language."
  else if negb (truthy (trim title)) || negb (truthy (trim content))
  then FormError "Title and content cannot be empty."
  else if truthy expiresAt then
    match parseDate expiresAt with
    | ValidDate t =>
        if t <=? now then FormError "Expiration date must be in the future."
        else FormSend (PostBody.mk (Some title) (Some content) (Some password)
                         (Some customSlug) (Some (toISOString t)))
    | InvalidDate => FormThrew
    end
  else FormSend (PostBody.mk (Some title) (Some content) (Some password)
                   (Some customSlug) None).

(** [handleUpdateSubmit] of the edit form ([notes/[slug]/edit/page.tsx]), up
    to the request it sends.  [isProtected] is [initialNote?.isProtected]. *)
Definition handleUpdateSubmit
    (title content currentPasswordForUpdate newPassword confirmNewPassword
       expiresAt : string)
    (isProtected : bool) (enteredViewPassword : string) (now : Z)
  : FormOutcome PutBody.t :=
  if isProfane (title +:+ " " +:+ content)
  then FormError "Profanity detected! Please remove inappropriate language."
  else if negb (truthy (trim title)) || negb (truthy (trim content))
  then FormError "Title and content cannot be empty."
  else if truthy newPassword && negb (String.eqb newPassword confirmNewPassword)
  then FormError "New passwords do not match."
  else
    let passwordToSend :=
      if isProtected && negb (truthy currentPasswordForUpdate)
      then enteredViewPassword else currentPasswordForUpdate in
    let send (e : Directive) :=
      FormSend (PutBody.mk (Some title) (Some content) (Some passwordToSend)
                  (if truthy newPassword then Some newPassword else None) e) in
    if truthy expiresAt then
      match parseDate expiresAt with
      | ValidDate t =>
          if t <=? now then FormError "Expiration date must be in the future."
          else send (Text (toISOString t))
      | InvalidDate => FormThrew
      end
    else send Null.

End Forms.


(** An entry of the history as the history page holds it. *)
Module HistoryEntry.
Record t : Type := mk { content : string; timestamp : string }.
End HistoryEntry.

(** One block of the history page: the version number in its heading and
    the two texts handed to [DiffViewer]. *)
Record Panel : Type := mkPanel {
  version : Z;
  oldText : string;
  newText : string
}.

(** Lines 421 and 509-556: the blocks of the history page, newest first.
    [currentNote] is the content of the current note, when it was
    fetched. *)
Definition panels (history : list HistoryEntry.t) (currentNote : option string)
  : list Panel :=
  let reversedHistory := reverse history in
  imap (fun index entry =>
          let previousEntryContent :=
            match reversedHistory !! S index with
            | Some e => HistoryEntry.content e
            | None => ""
            end in
          let contentToCompareWith :=
            match index, currentNote with
            | O, Some c => c
            | _, _ => previousEntryContent
            end in
          mkPanel (Z.of_nat (length history) - Z.of_nat index)
            contentToCompareWith (HistoryEntry.content entry))
       reversedHistory.

(** ** The cached connection: [connectToDatabase] of [lib/mongodb.ts] *)

(** A client, told apart by the number of the [new MongoClient] that made
    it, and a database handle of a client. *)
Record MongoClient : Type := mkMongoClient { client_uri : string; client_no : nat }.
Record Db : Type := mkDb { db_client : MongoClient; db_name : string }.

(** The module state: [cachedClient], [cachedDb], and the number of clients
    made so far. *)
Record Connection : Type := mkConnection {
  cachedClient : option MongoClient;
  cachedDb : option Db;
  clients_made : nat
}.

(** Lines 25-45.  [connect] does not fail in the model. *)
Definition connectToDatabase (uri dbName : string) (st : Connection)
  : Connection * (MongoClient * Db) :=
  match cachedClient st, cachedDb st with
  | Some client, Some db => (st, (client, db))
  | _, _ =>
      let client := mkMongoClient uri (clients_made st) in
      let db := mkDb client dbName in
      (mkConnection (Some client) (Some db) (S (clients_made st)), (client, db))
  end.

(** The results of [n] calls, one after the other. *)
Fixpoint connect_times (uri dbName : string) (n : nat) (st : Connection)
  : Connection * list (MongoClient * Db) :=
  match n with
  | O => (st, [])
  | S n' =>
      let '(st', result) := connectToDatabase uri dbName st in
      let '(st'', results) := connect_times uri dbName n' st' in
      (st'', result :: results)
  end.

(** The module state when the module has just been loaded. *)
Definition not_connected : Connection := mkConnection None None 0.


Section ShownHistory.
Context {caps : Capabilities}.

(** The history of a stored note as the history page gets it from the
    history handler: the entries of [historyResponse], in the same order. *)
Definition shown_history (n : Note.t) : list HistoryEntry.t :=
  map (fun entry =>
         HistoryEntry.mk (NoteContent.content entry)
           (toISOString (NoteContent.timestamp entry)))
      (Note.history n).

End ShownHistory.

(** The text that the block of the [k]-th entry is compared with, when it
    is not the current content: the content of the entry before it, the
    empty text for the first entry. *)
Definition previous_content (history : list HistoryEntry.t) (k : nat) : string :=
  match k with
  | O => ""
  | S j => from_option HistoryEntry.content "" (history !! j)
  end.


(** ** Passwords that hold a space *)

(** No character of [s] is a space. *)
Definition no_space (s : string) : bool :=
  string_forall (fun c => negb (Ascii.eqb c " ")) s.

(** A protected note whose password holds a space, and a server that
    stores it. *)
Module Spaced.

Definition password : string := "my pass".

Definition note : Note.t :=
  Note.mk "spaced" "T" "A" (Some (Sample.bcrypt_hash password 7))
    Sample.y2010 Sample.y2010 None [NoteContent.mk "A" Sample.y2010].

Definition server : Server := mkServer [note] ∅ ∅ ∅.

End Spaced.


(** ** The restore button of the history page *)

(** The state of the history page that a restore reads and writes:
    [noteHistory?.isProtected], [currentNote?.title] and the state
    variables of lines 103 and 111-115.  The variables that a restore only
    writes, for display ([isRestoring], [restoreMessage], [restoreError]),
    are left out. *)
Module RestorePage.
Record t : Type := mk {
  isProtected : bool;
  currentTitle : option string;
  enteredPassword : string;
  restorePasswordPrompt : bool;
  restorePassword : string;
  restoreContent : string;
  restoreIndex : option nat
}.
End RestorePage.








(** * Properties *)

(** ** Lemmas on strings and on the collection *)

Lemma split_space_head (cur s : string) :
  exists rest : list string,
    split_space cur s = String.rev_app cur (before_space s) :: rest.
Proof.
  revert cur. induction s as [|c r IH]; intros cur; simpl.
  - by exists [].
  - destruct (Ascii.eqb c " "); [by eexists|]. apply IH.
Qed.

Lemma string_forall_rev_app (p : ascii -> bool) (a b : string) :
  string_forall p (String.rev_app a b) = string_forall p a && string_forall p b.
Proof.
  revert b. induction a as [|c a IH]; intros b; simpl; [done|].
  rewrite IH. simpl. by destruct (p c), (string_forall p a).
Qed.

Lemma string_forall_rev (p : ascii -> bool) (s : string) :
  string_forall p (String.rev s) = string_forall p s.
Proof.
  unfold String.rev. rewrite string_forall_rev_app. simpl.
  by destruct (string_forall p s).
Qed.

(** No piece of a split holds a space. *)
Lemma split_space_no_space (cur s : string) :
  no_space cur = true ->
  Forall (fun piece => no_space piece = true) (split_space cur s).
Proof.
  revert cur. induction s as [|c r IH]; intros cur Hcur; simpl.
  - constructor; [|constructor]. unfold no_space in *.
    by rewrite string_forall_rev.
  - destruct (Ascii.eqb c " ") eqn:Hc.
    + constructor; [|by apply IH]. unfold no_space in *.
      by rewrite string_forall_rev.
    + apply IH. unfold no_space in *. simpl. by rewrite Hc.
Qed.

(** The token of a read holds no space, whatever the header. *)
Lemma bearerToken_no_space (req : Request) (token : string) :
  bearerToken req = Some token -> no_space token = true.
Proof.
  unfold bearerToken. destruct (authorization req) as [authHeader|]; [|done].
  pose proof (split_space_no_space "" authHeader eq_refl) as Hall.
  destruct (split_space "" authHeader) as [|a [|b l]]; [done | done |].
  intros [= <-]. inversion Hall as [|? ? _ Hrest]. by inversion Hrest.
Qed.

Lemma before_space_no_space (s : string) : no_space (before_space s) = true.
Proof.
  unfold no_space. induction s as [|c r IH]; simpl; [done|].
  destruct (Ascii.eqb c " ") eqn:Hc; simpl; [done|]. by rewrite Hc.
Qed.


Lemma first_free_Some (free : nat -> bool) (r a i : nat) :
  first_free free a r = Some i <->
  (a <= i < a + r)%nat /\ free i = true /\
  (forall j, (a <= j < i)%nat -> free j = false).
Proof.
  revert a. induction r as [|r IH]; intros a; simpl.
  - split; [discriminate | lia].
  - destruct (free a) eqn:Ha.
    + split.
      * intros [= <-]. split; [lia|]. split; [done|]. intros j Hj. lia.
      * intros (Hi & Hf & Hmin).
        destruct (decide (i = a)) as [->|Hne]; [done|].
        rewrite (Hmin a) in Ha; [discriminate | lia].
    + rewrite IH. split.
      * intros (Hi & Hf & Hmin). split; [lia|]. split; [done|].
        intros j Hj. destruct (decide (j = a)) as [->|Hne]; [done|].
        apply Hmin. lia.
      * intros (Hi & Hf & Hmin).
        assert (i <> a) by congruence.
        split; [lia|]. split; [done|]. intros j Hj. apply Hmin. lia.
Qed.

Lemma first_free_app (free : nat -> bool) (r1 r2 a : nat) :
  first_free free a (r1 + r2) =
  match first_free free a r1 with
  | Some i => Some i
  | None => first_free free (a + r1) r2
  end.
Proof.
  revert a. induction r1 as [|r1 IH]; intros a; simpl.
  - by rewrite Nat.add_0_r.
  - destruct (free a); [done|]. rewrite IH. by rewrite Nat.add_succ_r.
Qed.

Section AllocatorProperties.
Context {caps : Capabilities}.

Lemma baseSlug_normalize (p : string) : baseSlug (Some p) = normalize_trimmed p.
Proof.
  unfold baseSlug, normalize_trimmed, normalize_as_specified.
  by destruct (replace_spaces false (toLowerCase (trim p))).
Qed.

Lemma currentSlug_candidate (base : string) (k a : nat) :
  (a < MAX_ATTEMPTS)%nat ->
  currentSlug base a (counter_at base k a)
  = (candidate base k a, counter_at base k (S a)).
Proof.
  intros Ha. unfold currentSlug, candidate, counter_at.
  destruct (truthy base) eqn:Hb; simpl.
  - destruct a as [|a]; simpl.
    + by rewrite Nat.add_0_r.
    + destruct (Nat.ltb_spec (S a) MAX_ATTEMPTS) as [_|]; [|lia].
      by rewrite Nat.add_succ_r.
  - by rewrite Nat.add_succ_r.
Qed.

Lemma attempt_loop_first_free (notes : list Note.t) (base : string)
    (k r a : nat) :
  (a + r = MAX_ATTEMPTS)%nat ->
  attempt_loop notes base r a (counter_at base k a)
  = match first_free (fun i => is_free notes (candidate base k i)) a r with
    | Some i => (Some (candidate base k i), counter_at base k (S i))
    | None => (None, counter_at base k MAX_ATTEMPTS)
    end.
Proof.
  revert a. induction r as [|r IH]; intros a Har; simpl.
  - by replace a with MAX_ATTEMPTS by lia.
  - rewrite currentSlug_candidate by lia. unfold is_free at 1.
    destruct (findOne notes (candidate base k a)); [|done].
    apply IH. lia.
Qed.

Lemma fallback_loop_first_free (notes : list Note.t) (base : string)
    (k fuel j : nat) :
  fallback_loop notes fuel (counter_at base k (MAX_ATTEMPTS + j))
  = candidate base k
    <$> first_free (fun i => is_free notes (candidate base k i))
          (MAX_ATTEMPTS + j) fuel.
Proof.
  revert j. induction fuel as [|fuel IH]; intros j;
    cbn [fallback_loop first_free fmap option_fmap option_map]; [done|].
  assert (nanoid NANOID_SLUG_LENGTH (counter_at base k (MAX_ATTEMPTS + j))
          = candidate base k (MAX_ATTEMPTS + j)) as ->.
  { unfold candidate, counter_at. by destruct (truthy base). }
  unfold is_free at 1.
  destruct (findOne notes (candidate base k (MAX_ATTEMPTS + j))); [|done].
  specialize (IH (S j)).
  replace (MAX_ATTEMPTS + S j)%nat with (S (MAX_ATTEMPTS + j)) in IH by lia.
  rewrite <- IH. f_equal. unfold counter_at. destruct (truthy base); simpl; lia.
Qed.

(** The allocator returns the first free slug among the first
    [MAX_ATTEMPTS + fuel] candidates. *)
Lemma generateUniqueSlug_first_free (fuel : nat) (notes : list Note.t)
    (p : option string) (k : nat) :
  generateUniqueSlug fuel notes p k
  = candidate (baseSlug p) k
    <$> first_free (fun i => is_free notes (candidate (baseSlug p) k i))
          0 (MAX_ATTEMPTS + fuel).
Proof.
  unfold generateUniqueSlug.
  pose proof (attempt_loop_first_free notes (baseSlug p) k MAX_ATTEMPTS 0
                eq_refl) as Hloop.
  replace (counter_at (baseSlug p) k 0) with k in Hloop
    by (unfold counter_at; destruct (truthy (baseSlug p)); simpl; lia).
  rewrite Hloop, first_free_app.
  destruct (first_free _ 0 MAX_ATTEMPTS); [done|].
  pose proof (fallback_loop_first_free notes (baseSlug p) k fuel 0) as Hfb.
  by rewrite Nat.add_0_r in Hfb.
Qed.

(** In other words: it returns [s] exactly when [s] is the first candidate
    that no stored note has, and that candidate is within the fuel. *)
Lemma generateUniqueSlug_Some (fuel : nat) (notes : list Note.t)
    (p : option string) (k : nat) (s : string) :
  generateUniqueSlug fuel notes p k = Some s <->
  exists i : nat,
    (i < MAX_ATTEMPTS + fuel)%nat
    /\ s = candidate (baseSlug p) k i
    /\ findOne notes s = None
    /\ forall j : nat, (j < i)%nat ->
         findOne notes (candidate (baseSlug p) k j) <> None.
Proof.
  rewrite generateUniqueSlug_first_free. split.
  - intros Hs. apply fmap_Some in Hs as (i & Hi & ->).
    apply first_free_Some in Hi as (Hlt & Hfree & Hmin).
    exists i. split; [lia|]. split; [done|]. split.
    + unfold is_free in Hfree.
      destruct (findOne notes (candidate (baseSlug p) k i)); congruence.
    + intros j Hj. specialize (Hmin j ltac:(lia)).
      unfold is_free in Hmin.
      destruct (findOne notes (candidate (baseSlug p) k j)); congruence.
  - intros (i & Hlt & -> & Hfree & Hmin).
    apply fmap_Some. exists i. split; [|done].
    apply first_free_Some. split; [lia|]. split.
    + unfold is_free. by rewrite Hfree.
    + intros j Hj. specialize (Hmin j ltac:(lia)).
      unfold is_free.
      destruct (findOne notes (candidate (baseSlug p) k j)); congruence.
Qed.

Lemma generateUniqueSlug_free (fuel : nat) (notes : list Note.t)
    (p : option string) (k : nat) (s : string) :
  generateUniqueSlug fuel notes p k = Some s -> findOne notes s = None.
Proof.
  intros Hs. apply generateUniqueSlug_Some in Hs as (i & _ & _ & Hfree & _).
  exact Hfree.
Qed.

End AllocatorProperties.

(** ** C3: the identifier allocator *)

Section C3.
Context {caps : Capabilities}.

(** C3 (amended).  The base of a proposal is the proposal trimmed of its
    surrounding white space, then lowercased, with white-space runs turned
    into hyphens, stripped to [[a-z0-9-]] and truncated to 50 characters;
    an absent proposal has the empty base.  The allocator returns [s]
    exactly when [s] is the first candidate that no stored note occupies,
    the candidates being tried in the order of [candidate]: the base, then
    the base with a random suffix for the rest of the 5 bounded attempts,
    then random identifiers without a bound ([fuel] of them in the model);
    without a base every attempt is a random identifier.  In particular a
    returned slug is not occupied, and the allocator returns as soon as the
    fuel reaches a free candidate. *)
Theorem C3_generateUniqueSlug (fuel : nat) (notes : list Note.t)
    (p : option string) (k : nat) (s : string) :
  baseSlug p = match p with Some x => normalize_trimmed x | None => "" end
  /\ (generateUniqueSlug fuel notes p k = Some s <->
      exists i : nat,
        (i < MAX_ATTEMPTS + fuel)%nat
        /\ s = candidate (baseSlug p) k i
        /\ findOne notes s = None
        /\ forall j : nat, (j < i)%nat ->
             findOne notes (candidate (baseSlug p) k j) <> None)
  /\ (generateUniqueSlug fuel notes p k = Some s -> findOne notes s = None).
Proof.
  split; [|split].
  - destruct p as [x|]; [apply baseSlug_normalize | reflexivity].
  - apply generateUniqueSlug_Some.
  - apply generateUniqueSlug_free.
Qed.

End C3.

(** C3, as stated, fails on a proposal with surrounding white space: the
    stated normalization of [" My Note "] is ["-my-note-"], the allocator
    takes ["my-note"] as its base and returns it on an empty collection. *)
Lemma C3_trim_counterexample :
  normalize_as_specified " My Note " = "-my-note-"
  /\ baseSlug (Some " My Note ") = "my-note"
  /\ generateUniqueSlug (caps := Sample.caps) 0 [] (Some " My Note ") 0
     = Some "my-note"
  /\ baseSlug (Some " My Note ") <> normalize_as_specified " My Note ".
Proof. repeat split; try reflexivity. vm_compute. discriminate. Qed.

(** A run of the allocator through all its stages: the base and its four
    suffixed forms are taken, the first fallback identifier is free. *)
Example generateUniqueSlug_fallback :
  let taken s := Note.mk s "T" "A" None 0 0 None [] in
  generateUniqueSlug (caps := Sample.caps) 1
    (map taken ["a"; "a-0___"; "a-1___"; "a-2___"; "a-3___"]) (Some "A") 0
  = Some "4_______".
Proof. reflexivity. Qed.

(** ** C10: the rate limiter *)

Lemma bump_taken_up (old : option ClientData) (now : Z) :
  bump old now
  = mkClientData (count (taken_up old now) + 1) (lastReset (taken_up old now)).
Proof.
  unfold bump, taken_up. destruct old as [d|]; simpl.
  - by destruct (WINDOW_SIZE_MS <? now - lastReset d).
  - replace (now - now) with 0 by lia. reflexivity.
Qed.

Lemma applyRateLimit_store (maxRequests : Z) (store : gmap string ClientData)
    (req : Request) (now : Z) :
  fst (applyRateLimit maxRequests store req now)
  = <[clientKey req := bump (store !! clientKey req) now]> store.
Proof. unfold applyRateLimit. by destruct (_ <? _). Qed.

Lemma applyRateLimit_answer (maxRequests : Z) (store : gmap string ClientData)
    (req : Request) (now : Z) :
  snd (applyRateLimit maxRequests store req now)
  = let d := bump (store !! clientKey req) now in
    if maxRequests <? count d
    then Some (tooManyRequests
                 (ceil_div_1000 (lastReset d + WINDOW_SIZE_MS - now)))
    else None.
Proof. unfold applyRateLimit. simpl. by destruct (_ <? _). Qed.

Lemma rejected_answer (maxRequests : Z) (store : gmap string ClientData)
    (req : Request) (now : Z) :
  rejected (snd (applyRateLimit maxRequests store req now)) = true
  <-> maxRequests < count (bump (store !! clientKey req) now).
Proof.
  rewrite applyRateLimit_answer. cbv zeta.
  destruct (Z.ltb_spec maxRequests (count (bump (store !! clientKey req) now)));
    cbn [rejected tooManyRequests status]; split; intros; try done; lia.
Qed.

(** Inside one window the counter walks up by one per request, and the
    [i]-th answer is a rejection exactly when the counter it reached is
    over the maximum. *)
Lemma applyRateLimit_run_window (maxRequests : Z) (req : Request)
    (times : list Z) (store : gmap string ClientData) (d : ClientData) :
  store !! clientKey req = Some d ->
  Forall (fun t => t - lastReset d <= WINDOW_SIZE_MS) times ->
  fst (applyRateLimit_run maxRequests store req times) !! clientKey req
  = Some (mkClientData (count d + Z.of_nat (length times)) (lastReset d))
  /\ forall (i : nat) (r : option Response),
       snd (applyRateLimit_run maxRequests store req times) !! i = Some r ->
       (rejected r = true <-> maxRequests < count d + Z.of_nat i + 1).
Proof.
  revert store d. induction times as [|t times IH]; intros store d Hd Hwin.
  - simpl. split; [|intros i r Hi; by destruct i].
    rewrite Hd. destruct d. simpl. do 2 f_equal. lia.
  - apply Forall_cons in Hwin as [Ht Hwin].
    cbn [applyRateLimit_run].
    pose proof (applyRateLimit_store maxRequests store req t) as Hst.
    pose proof (rejected_answer maxRequests store req t) as Hans.
    destruct (applyRateLimit maxRequests store req t) as [store' r] eqn:Hstep.
    cbn [fst snd] in Hst, Hans.
    assert (Hb : bump (store !! clientKey req) t
                 = mkClientData (count d + 1) (lastReset d)).
    { rewrite bump_taken_up, Hd. unfold taken_up.
      destruct (Z.ltb_spec WINDOW_SIZE_MS (t - lastReset d)); [lia | done]. }
    rewrite Hb in Hst, Hans. cbn [count] in Hans.
    assert (Hd' : store' !! clientKey req
                  = Some (mkClientData (count d + 1) (lastReset d))).
    { rewrite Hst. apply lookup_insert_eq. }
    specialize (IH store' _ Hd' Hwin). simpl in IH.
    destruct (applyRateLimit_run maxRequests store' req times) as [store'' rs].
    simpl in *. destruct IH as [IH1 IH2]. split.
    + rewrite IH1. do 2 f_equal. lia.
    + intros [|i] r' Hi; simpl in Hi.
      * injection Hi as <-. rewrite Hans. lia.
      * rewrite (IH2 i r' Hi). lia.
Qed.

Section Limited.
Context {caps : Capabilities}.

Lemma GET_passed (srv : Server) (req : Request) (slug : string) (env : GetEnv) :
  snd (applyRateLimit MAX_REQUESTS_NOTE (noteLimits srv) req (get_limit_now env))
  = None ->
  snd (GET srv req slug env) = GET_body (notes srv) req slug (get_now env)
  /\ notes (fst (GET srv req slug env)) = notes srv.
Proof.
  unfold GET. destruct (applyRateLimit _ _ _ _) as [limits r]. simpl.
  by intros ->.
Qed.

Lemma history_GET_passed (srv : Server) (req : Request) (slug : string)
    (env : GetEnv) :
  snd (applyRateLimit MAX_REQUESTS_HISTORY (historyLimits srv) req
         (get_limit_now env)) = None ->
  snd (history_GET srv req slug env)
  = history_GET_body (notes srv) req slug (get_now env)
  /\ notes (fst (history_GET srv req slug env)) = notes srv.
Proof.
  unfold history_GET. destruct (applyRateLimit _ _ _ _) as [limits r]. simpl.
  by intros ->.
Qed.

Lemma PUT_passed (srv : Server) (req : Request) (slug : string)
    (body : PutBody.t) (env : PutEnv) :
  snd (applyRateLimit MAX_REQUESTS_NOTE (noteLimits srv) req (put_limit_now env))
  = None ->
  snd (PUT srv req slug body env) = snd (PUT_body (notes srv) slug body env)
  /\ notes (fst (PUT srv req slug body env))
     = fst (PUT_body (notes srv) slug body env).
Proof.
  unfold PUT. destruct (applyRateLimit _ _ _ _) as [limits r]. simpl.
  intros ->. by destruct (PUT_body _ _ _ _).
Qed.

Lemma POST_passed (srv : Server) (req : Request) (body : PostBody.t)
    (env : PostEnv) :
  snd (applyRateLimit MAX_REQUESTS_CREATE (createLimits srv) req
         (post_limit_now env)) = None ->
  POST srv req body env
  = (fun x => (mkServer (fst x)
                 (fst (applyRateLimit MAX_REQUESTS_CREATE (createLimits srv) req
                         (post_limit_now env)))
                 (noteLimits srv) (historyLimits srv), snd x))
    <$> POST_body (notes srv) body env.
Proof.
  unfold POST. destruct (applyRateLimit _ _ _ _) as [limits r]. simpl.
  intros ->. by destruct (POST_body _ _ _) as [[? ?]|].
Qed.

Lemma GET_guarded (srv : Server) (req : Request) (slug : string) (env : GetEnv) :
  guarded MAX_REQUESTS_NOTE (noteLimits srv)
    (noteLimits (fst (GET srv req slug env))) req (get_limit_now env)
    (snd (GET srv req slug env)).
Proof.
  unfold guarded, GET. destruct (applyRateLimit _ _ _ _) as [limits [r|]];
    simpl; split; congruence.
Qed.

Lemma history_GET_guarded (srv : Server) (req : Request) (slug : string)
    (env : GetEnv) :
  guarded MAX_REQUESTS_HISTORY (historyLimits srv)
    (historyLimits (fst (history_GET srv req slug env))) req (get_limit_now env)
    (snd (history_GET srv req slug env)).
Proof.
  unfold guarded, history_GET.
  destruct (applyRateLimit _ _ _ _) as [limits [r|]]; simpl; split; congruence.
Qed.

Lemma PUT_guarded (srv : Server) (req : Request) (slug : string)
    (body : PutBody.t) (env : PutEnv) :
  guarded MAX_REQUESTS_NOTE (noteLimits srv)
    (noteLimits (fst (PUT srv req slug body env))) req (put_limit_now env)
    (snd (PUT srv req slug body env)).
Proof.
  unfold guarded, PUT. destruct (applyRateLimit _ _ _ _) as [limits [r|]];
    simpl; [split; congruence|].
  destruct (PUT_body _ _ _ _). simpl. split; congruence.
Qed.

Lemma POST_guarded (srv : Server) (req : Request) (body : PostBody.t)
    (env : PostEnv) :
  match POST srv req body env with
  | Some (srv', answer) =>
      guarded MAX_REQUESTS_CREATE (createLimits srv) (createLimits srv') req
        (post_limit_now env) answer
  | None =>
      snd (applyRateLimit MAX_REQUESTS_CREATE (createLimits srv) req
             (post_limit_now env)) = None
  end.
Proof.
  unfold guarded, POST. destruct (applyRateLimit _ _ _ _) as [limits [r|]];
    simpl; [split; congruence|].
  destruct (POST_body _ _ _) as [[? ?]|]; simpl; [split; congruence | done].
Qed.

(** C10.  One request of a client at time [now]: the client's counter,
    taken up fresh, reset (when more than the 60-second window has passed
    since its last reset) or as it stands, is incremented and stored
    whether or not the request is rejected, and no other client's record
    changes; the request is rejected, with status 429 and a Retry-After
    header, exactly when the incremented counter is over the maximum.  The
    maximum is 5 for Create and 10 for Read, Update and History, each
    handler being guarded by the limiter.  A client whose counter has
    reached the maximum is rejected at every request of the same window. *)
Theorem C10_rate_limiter (maxRequests : Z) (store : gmap string ClientData)
    (req : Request) (now : Z) :
  let key := clientKey req in
  let d := taken_up (store !! key) now in
  let store' := fst (applyRateLimit maxRequests store req now) in
  let answer := snd (applyRateLimit maxRequests store req now) in
  store' !! key = Some (mkClientData (count d + 1) (lastReset d))
  /\ (forall k : string, k <> key -> store' !! k = store !! k)
  /\ answer
     = (if maxRequests <? count d + 1
        then Some (tooManyRequests
                     (ceil_div_1000 (lastReset d + WINDOW_SIZE_MS - now)))
        else None)
  /\ (rejected answer = true <-> maxRequests < count d + 1)
  /\ (forall t : Z,
        status (tooManyRequests t) = 429
        /\ headers (tooManyRequests t) = [("Retry-After", pretty t)])
  /\ (forall old : ClientData, store !! key = Some old ->
        (WINDOW_SIZE_MS < now - lastReset old -> d = mkClientData 0 now)
        /\ (now - lastReset old <= WINDOW_SIZE_MS -> d = old))
  /\ (store !! key = None -> d = mkClientData 0 now)
  /\ (WINDOW_SIZE_MS = 60000 /\ MAX_REQUESTS_CREATE = 5
      /\ MAX_REQUESTS_NOTE = 10 /\ MAX_REQUESTS_HISTORY = 10)
  /\ (forall (srv : Server) (slug : string) (genv : GetEnv)
             (pbody : PutBody.t) (penv : PutEnv),
        guarded MAX_REQUESTS_NOTE (noteLimits srv)
          (noteLimits (fst (GET srv req slug genv))) req (get_limit_now genv)
          (snd (GET srv req slug genv))
        /\ guarded MAX_REQUESTS_NOTE (noteLimits srv)
             (noteLimits (fst (PUT srv req slug pbody penv))) req
             (put_limit_now penv) (snd (PUT srv req slug pbody penv))
        /\ guarded MAX_REQUESTS_HISTORY (historyLimits srv)
             (historyLimits (fst (history_GET srv req slug genv))) req
             (get_limit_now genv) (snd (history_GET srv req slug genv)))
  /\ (forall (srv : Server) (body : PostBody.t) (env : PostEnv),
        match POST srv req body env with
        | Some (srv', r) =>
            guarded MAX_REQUESTS_CREATE (createLimits srv) (createLimits srv')
              req (post_limit_now env) r
        | None =>
            snd (applyRateLimit MAX_REQUESTS_CREATE (createLimits srv) req
                   (post_limit_now env)) = None
        end)
  /\ (forall (old : ClientData) (times : list Z),
        store !! key = Some old ->
        maxRequests <= count old ->
        Forall (fun t => t - lastReset old <= WINDOW_SIZE_MS) times ->
        Forall (fun r => rejected r = true)
          (snd (applyRateLimit_run maxRequests store req times))).
Proof.
  intros key d store' answer.
  assert (Hb : bump (store !! key) now
               = mkClientData (count d + 1) (lastReset d))
    by apply bump_taken_up.
  split; [|split; [|split; [|split; [|split; [|split; [|split;
    [|split; [|split; [|split]]]]]]]]].
  - subst store'. rewrite applyRateLimit_store. fold key. rewrite Hb.
    apply lookup_insert_eq.
  - intros k Hk. subst store'. rewrite applyRateLimit_store.
    by apply lookup_insert_ne.
  - subst answer. rewrite applyRateLimit_answer. fold key. by rewrite Hb.
  - subst answer. rewrite rejected_answer. fold key. by rewrite Hb.
  - done.
  - intros old Hold. subst d. rewrite Hold. unfold taken_up. split; intros Hw.
    + destruct (Z.ltb_spec WINDOW_SIZE_MS (now - lastReset old)); [done | lia].
    + destruct (Z.ltb_spec WINDOW_SIZE_MS (now - lastReset old)); [lia | done].
  - intros Hnone. subst d. by rewrite Hnone.
  - done.
  - intros srv slug genv pbody penv.
    split; [apply GET_guarded | split; [apply PUT_guarded |
      apply history_GET_guarded]].
  - intros srv body env. apply POST_guarded.
  - intros old times Hold Hmax Hwin.
    destruct (applyRateLimit_run_window maxRequests req times store old Hold Hwin)
      as [_ Hrun].
    apply Forall_lookup. intros i r Hi. apply (Hrun i r Hi). lia.
Qed.

End Limited.

(** ** Lemmas on [updateOne] and on the two stages of PUT *)

Lemma findOne_updateOne (notes : list Note.t) (s : string)
    (f : Note.t -> Note.t) :
  (forall n, Note.slug (f n) = Note.slug n) ->
  findOne (fst (updateOne notes s f)) s = f <$> findOne notes s.
Proof.
  intros Hf. induction notes as [|n r IH]; simpl; [done|].
  destruct (String.eqb (Note.slug n) s) eqn:Hn; simpl.
  - by rewrite Hf, Hn.
  - destruct (updateOne r s f) as [r' counts]. simpl in *. by rewrite Hn.
Qed.

Lemma updateOne_counts (notes : list Note.t) (s : string)
    (f : Note.t -> Note.t) (note : Note.t) :
  findOne notes s = Some note ->
  snd (updateOne notes s f) = (1, if decide (f note = note) then 0 else 1).
Proof.
  induction notes as [|n r IH]; simpl; [done|].
  destruct (String.eqb (Note.slug n) s) eqn:Hn; simpl.
  - by intros [= ->].
  - intros Hr. specialize (IH Hr).
    destruct (updateOne r s f) as [r' counts]. by simpl in *.
Qed.

Lemma updateDoc_slug (title content : string) (updatedAt : Z)
    (newHash : option string) (e : ExpiresUpdate) (push : option NoteContent.t)
    (stored : Note.t) :
  Note.slug (updateDoc title content updatedAt newHash e push stored)
  = Note.slug stored.
Proof. reflexivity. Qed.

Section PutStages.
Context {caps : Capabilities}.

(** The second stage: a directive that is not in the future is answered
    with 400 and nothing is written; otherwise the stored document becomes
    [updated] and the answer is 200, or 500 when the comparison of line 242
    throws on an unchanged document with an invalid [expiresAt]. *)
Lemma PUT_apply_spec (notes : list Note.t) (slug : string) (note : Note.t)
    (title content : string) (body : PutBody.t) (env : PutEnv) :
  findOne notes slug = Some note ->
  match resolveExpiresAt (PutBody.expiresAt body) (put_directive_now env) with
  | Reject =>
      PUT_apply notes slug note title content body env
      = (notes, message_response 400 "Expiration date must be in the future.")
  | _ =>
      findOne (fst (PUT_apply notes slug note title content body env)) slug
      = Some (updated note title content body env)
      /\ (status (snd (PUT_apply notes slug note title content body env)) = 200
          \/ status (snd (PUT_apply notes slug note title content body env)) = 500
             /\ updated note title content body env = note
             /\ sameExpiresAt note (PutBody.expiresAt body) = None)
  end.
Proof.
  intros Hfind. unfold PUT_apply, updated.
  destruct (resolveExpiresAt _ _) as [|e|] eqn:He; [| |done].
  all: set (f := updateDoc _ _ _ _ _ _).
  all: pose proof (findOne_updateOne notes slug f (updateDoc_slug _ _ _ _ _ _))
         as Hnew.
  all: pose proof (updateOne_counts notes slug f note Hfind) as Hcounts.
  all: destruct (updateOne notes slug f) as [notes' [matched modified]].
  all: simpl in Hnew, Hcounts; rewrite Hfind in Hnew; simpl in Hnew.
  all: injection Hcounts as -> ->; simpl.
  all: destruct (decide (f note = note)) as [Hsame|Hdiff]; simpl;
         [|by split; [|left]].
  all: destruct (String.eqb (Note.content note) content); simpl;
         [|by split; [|left]].
  all: destruct (truthy_opt (PutBody.newPassword body)); simpl;
         [by split; [|left]|].
  all: destruct (sameExpiresAt note (PutBody.expiresAt body)) as [[|]|];
         simpl; (split; [exact Hnew|]); [by left | by left | right; done].
Qed.

(** The first stage lets an admitted update through to the second. *)
Lemma PUT_admitted (srv : Server) (req : Request) (slug : string)
    (body : PutBody.t) (env : PutEnv) (note : Note.t) (title content : string) :
  update_admitted srv req slug body env note title content ->
  snd (PUT srv req slug body env)
  = snd (PUT_apply (notes srv) slug note title content body env)
  /\ notes (fst (PUT srv req slug body env))
     = fst (PUT_apply (notes srv) slug note title content body env).
Proof.
  intros (Hrl & Ht & Htt & Hc & Hct & Hprof & Hfind & Hexp & Hauth).
  destruct (PUT_passed srv req slug body env Hrl) as [-> ->].
  unfold PUT_body. rewrite Ht, Hc, Htt, Hct, Hprof, Hfind, Hexp. simpl.
  unfold authorized in Hauth. destruct (isProtected note); [|done].
  destruct (PutBody.currentPassword body) as [c|]; [|done].
  apply andb_true_iff in Hauth as [-> ->]. done.
Qed.

(** Validation and the content filter come before the lookup. *)
Lemma PUT_body_lookup (notes : list Note.t) (slug : string) (body : PutBody.t)
    (env : PutEnv) (title content : string) :
  PutBody.title body = Some title -> truthy title = true ->
  PutBody.content body = Some content -> truthy content = true ->
  isProfane (title +:+ " " +:+ content) = false ->
  PUT_body notes slug body env
  = match findOne notes slug with
    | None => (notes, message_response 404 "Note not found.")
    | Some note =>
        if expired note (put_expiry_now env)
        then (notes, message_response 400 "Cannot update an expired note.")
        else if isProtected note then
          if negb (supplied (PutBody.currentPassword body))
          then (notes, message_response 401
                         "Current password required to update this note.")
          else if negb (authorized note (PutBody.currentPassword body))
          then (notes, message_response 401 "Incorrect password.")
          else PUT_apply notes slug note title content body env
        else PUT_apply notes slug note title content body env
    end.
Proof.
  intros Ht Htt Hc Hct Hprof. unfold PUT_body.
  rewrite Ht, Hc, Htt, Hct, Hprof. simpl.
  destruct (findOne notes slug) as [note|]; [|done].
  destruct (expired note _); [done|].
  unfold authorized, supplied. destruct (isProtected note); [|done].
  destruct (PutBody.currentPassword body) as [c|]; simpl; [|done].
  by destruct (truthy c).
Qed.

End PutStages.

(** ** C1: expired and absent notes *)

Section C1.
Context {caps : Capabilities}.

(** C1 (amended).  With the limiter passed: Read answers 404 for a note
    whose [expiresAt] is at or before the current time, as it does for a
    slug without a note (the messages differ: "Note has expired." and
    "Note not found.").  Update, its title and content being valid, answers
    404 for a slug without a note and 400, "Cannot update an expired
    note.", for an expired one, and writes nothing. *)
Theorem C1_expired_and_absent (srv : Server) (req : Request)
    (slug absent : string) (genv : GetEnv) (body : PutBody.t) (penv : PutEnv)
    (note : Note.t) (t : Z) (title content : string) :
  snd (applyRateLimit MAX_REQUESTS_NOTE (noteLimits srv) req (get_limit_now genv))
  = None ->
  snd (applyRateLimit MAX_REQUESTS_NOTE (noteLimits srv) req (put_limit_now penv))
  = None ->
  PutBody.title body = Some title -> truthy title = true ->
  PutBody.content body = Some content -> truthy content = true ->
  isProfane (title +:+ " " +:+ content) = false ->
  findOne (notes srv) slug = Some note ->
  Note.expiresAt note = Some (ValidDate t) ->
  t <= get_now genv ->
  t <= put_expiry_now penv ->
  findOne (notes srv) absent = None ->
  snd (GET srv req slug genv) = message_response 404 "Note has expired."
  /\ snd (GET srv req absent genv) = message_response 404 "Note not found."
  /\ snd (PUT srv req slug body penv)
     = message_response 400 "Cannot update an expired note."
  /\ snd (PUT srv req absent body penv) = message_response 404 "Note not found."
  /\ notes (fst (PUT srv req slug body penv)) = notes srv
  /\ status (snd (GET srv req slug genv)) = status (snd (GET srv req absent genv))
  /\ status (snd (PUT srv req slug body penv))
     <> status (snd (PUT srv req absent body penv)).
Proof.
  intros Hg Hp Ht Htt Hc Hct Hprof Hfind Hexp Htg Htp Habs.
  assert (Heg : expired note (get_now genv) = true).
  { unfold expired. rewrite Hexp. simpl. lia. }
  assert (Hep : expired note (put_expiry_now penv) = true).
  { unfold expired. rewrite Hexp. simpl. lia. }
  destruct (GET_passed srv req slug genv Hg) as [G1 _].
  destruct (GET_passed srv req absent genv Hg) as [G2 _].
  destruct (PUT_passed srv req slug body penv Hp) as [P1 P1'].
  destruct (PUT_passed srv req absent body penv Hp) as [P2 _].
  rewrite G1, G2, P1, P2, P1'.
  rewrite !(PUT_body_lookup _ _ _ _ title content Ht Htt Hc Hct Hprof).
  unfold GET_body. rewrite Hfind, Habs, Heg, Hep. simpl.
  repeat split; done.
Qed.

End C1.

(** C1 at the sample server: the note "old" expired in 2010, no note has
    the slug "gone", and the requests are made in 2020. *)
Lemma C1_expired_and_absent_witness :
  snd (GET (caps := Sample.caps) Sample.server Sample.anyone "old"
         Sample.get_env)
  = message_response 404 "Note has expired."
  /\ snd (PUT (caps := Sample.caps) Sample.server Sample.anyone "old"
            (Sample.put_body "T" "B" None Omitted) Sample.put_env)
     = message_response 400 "Cannot update an expired note.".
Proof.
  pose proof (C1_expired_and_absent (caps := Sample.caps) Sample.server
                Sample.anyone "old" "gone" Sample.get_env
                (Sample.put_body "T" "B" None Omitted) Sample.put_env
                Sample.old_note Sample.y2010 "T" "B"
                eq_refl eq_refl eq_refl eq_refl eq_refl eq_refl eq_refl
                eq_refl eq_refl) as Hc1.
  destruct Hc1 as (G & _ & P & _).
  - vm_compute. discriminate.
  - vm_compute. discriminate.
  - reflexivity.
  - split; [exact G | exact P].
Defined.

(** C1, as stated, fails for Update: on the expired note "old" it answers
    400 where it answers 404 on the slug "gone", which has no note. *)
Lemma C1_update_expired_counterexample :
  findOne (notes Sample.server) "old" = Some Sample.old_note
  /\ Note.expiresAt Sample.old_note = Some (ValidDate Sample.y2010)
  /\ Sample.y2010 <= put_expiry_now Sample.put_env
  /\ findOne (notes Sample.server) "gone" = None
  /\ status (snd (PUT (caps := Sample.caps) Sample.server Sample.anyone "old"
                    (Sample.put_body "T" "B" None Omitted) Sample.put_env))
     = 400
  /\ status (snd (PUT (caps := Sample.caps) Sample.server Sample.anyone "gone"
                    (Sample.put_body "T" "B" None Omitted) Sample.put_env))
     = 404.
Proof.
  split; [reflexivity|]. split; [reflexivity|].
  split; [vm_compute; discriminate|]. repeat split; reflexivity.
Qed.

(** ** The access gate of Read and Update, on what the handlers compare *)

Section AccessGate.
Context {caps : Capabilities}.

Lemma GET_respond_status (note : Note.t) :
  status (GET_respond note) = 200 \/ status (GET_respond note) = 500.
Proof.
  unfold GET_respond. destruct (noteResponse note _); [by left | by right].
Qed.

Lemma PUT_apply_status (notes : list Note.t) (slug : string) (note : Note.t)
    (title content : string) (body : PutBody.t) (env : PutEnv) :
  findOne notes slug = Some note ->
  status (snd (PUT_apply notes slug note title content body env)) <> 401.
Proof.
  intros Hfind.
  pose proof (PUT_apply_spec notes slug note title content body env Hfind) as Hs.
  destruct (resolveExpiresAt _ _).
  - destruct Hs as [_ [-> | [-> _]]]; done.
  - destruct Hs as [_ [-> | [-> _]]]; done.
  - by rewrite Hs.
Qed.

(** The access gate on what the handlers compare: the token that Read
    takes from the Authorization header, and the [currentPassword] of an
    Update.  On a stored note that has not expired, with the limiter passed
    (and, for Update, title and content valid): a note without a digest is
    read and updated whatever comes with the request; a protected note
    answers 401 "Password required." (Read) when the header yields no
    token, or "Current password required to update this note." (Update)
    when there is no current password; otherwise it answers 401 "Invalid
    password." (Read) or "Incorrect password." (Update) when
    [bcrypt.compare] fails on the token or the current password, and goes
    on to the read or the update, whose answer is never 401, when it
    succeeds. *)
Theorem access_gate_on_token (srv : Server) (req : Request) (slug : string)
    (genv : GetEnv) (body : PutBody.t) (penv : PutEnv) (note : Note.t)
    (title content : string) :
  read_admitted srv req slug genv note ->
  snd (applyRateLimit MAX_REQUESTS_NOTE (noteLimits srv) req (put_limit_now penv))
  = None ->
  PutBody.title body = Some title -> truthy title = true ->
  PutBody.content body = Some content -> truthy content = true ->
  isProfane (title +:+ " " +:+ content) = false ->
  expired note (put_expiry_now penv) = false ->
  let digest := default "" (Note.passwordHash note) in
  let proceed := PUT_apply (notes srv) slug note title content body penv in
  (isProtected note = false ->
     snd (GET srv req slug genv) = GET_respond note
     /\ snd (PUT srv req slug body penv) = snd proceed
     /\ notes (fst (PUT srv req slug body penv)) = fst proceed)
  /\ (isProtected note = true ->
      (supplied (bearerToken req) = false ->
         snd (GET srv req slug genv) = message_response 401 "Password required.")
      /\ (supplied (PutBody.currentPassword body) = false ->
            snd (PUT srv req slug body penv)
            = message_response 401
                "Current password required to update this note."
            /\ notes (fst (PUT srv req slug body penv)) = notes srv)
      /\ (forall token : string,
            bearerToken req = Some token -> truthy token = true ->
            (bcrypt_compare token digest = false ->
               snd (GET srv req slug genv)
               = message_response 401 "Invalid password.")
            /\ (bcrypt_compare token digest = true ->
                  snd (GET srv req slug genv) = GET_respond note))
      /\ (forall currentPassword : string,
            PutBody.currentPassword body = Some currentPassword ->
            truthy currentPassword = true ->
            (bcrypt_compare currentPassword digest = false ->
               snd (PUT srv req slug body penv)
               = message_response 401 "Incorrect password."
               /\ notes (fst (PUT srv req slug body penv)) = notes srv)
            /\ (bcrypt_compare currentPassword digest = true ->
                  snd (PUT srv req slug body penv) = snd proceed
                  /\ notes (fst (PUT srv req slug body penv)) = fst proceed)))
  /\ status (GET_respond note) <> 401
  /\ status (snd proceed) <> 401.
Proof.
  intros (Hg & Hfind & Hexp) Hp Ht Htt Hc Hct Hprof Hexp' digest proceed.
  destruct (GET_passed srv req slug genv Hg) as [-> _].
  destruct (PUT_passed srv req slug body penv Hp) as [-> ->].
  rewrite (PUT_body_lookup _ _ _ _ title content Ht Htt Hc Hct Hprof).
  unfold GET_body. rewrite Hfind, Hexp, Hexp'. fold proceed.
  split; [|split; [|split]].
  - intros ->. done.
  - intros Hprot. rewrite Hprot. split; [|split; [|split]].
    + unfold supplied. destruct (bearerToken req) as [token|]; simpl; [|done].
      by intros ->.
    + by intros ->.
    + intros token -> Htok. rewrite Htok. simpl. fold digest.
      split; by intros ->.
    + intros c Hcp Hctruthy. unfold supplied, authorized.
      rewrite Hcp, Hprot. simpl. rewrite Hctruthy. simpl. fold digest.
      split; intros ->; done.
  - destruct (GET_respond_status note) as [-> | ->]; done.
  - by apply PUT_apply_status.
Qed.

End AccessGate.

(** The gate at the sample server: the protected note "locked" is read
    with its password and not updated without one. *)
Lemma access_gate_on_token_witness :
  snd (GET (caps := Sample.caps) Sample.server (Sample.bearer "s3cret") "locked"
         Sample.get_env)
  = GET_respond (caps := Sample.caps) Sample.locked_note
  /\ snd (PUT (caps := Sample.caps) Sample.server (Sample.bearer "s3cret")
            "locked" (Sample.put_body "T" "B" None Omitted) Sample.put_env)
     = message_response 401 "Current password required to update this note.".
Proof.
  pose proof (access_gate_on_token (caps := Sample.caps) Sample.server
                (Sample.bearer "s3cret") "locked" Sample.get_env
                (Sample.put_body "T" "B" None Omitted) Sample.put_env
                Sample.locked_note "T" "B"
                (conj eq_refl (conj eq_refl eq_refl))
                eq_refl eq_refl eq_refl eq_refl eq_refl eq_refl eq_refl) as Hc4.
  cbv zeta in Hc4. destruct Hc4 as (_ & Hprot & _).
  destruct (Hprot eq_refl) as (_ & Hput & Hget & _).
  split.
  - exact (proj2 (Hget "s3cret" eq_refl eq_refl) eq_refl).
  - exact (proj1 (Hput eq_refl)).
Defined.


(** ** C4: a password that holds a space *)

Section SpacedPassword.
Context {caps : Capabilities}.

(** C4.  Read does not follow the gate for a password that holds a space,
    and Update does.  Take a protected note, stored and not expired, whose
    digest [bcrypt.compare] accepts for no string without a space, and an
    Update that is let through with [password] as its [currentPassword]:
    the verification of [password] succeeds, [password] holds a space, and
    the answer is that of the update itself, never 401.  A Read past the
    limiter answers 401, "Password required." or "Invalid password.",
    whatever its Authorization header is, because the token it verifies is
    a piece of the header between two spaces; with the header ["Bearer " +
    password], as the pages send it, it verifies the part of the password
    before its first space and answers 401 "Invalid password.", or
    "Password required." when the password starts with a space. *)
Theorem C4_read_refuses_password_with_space (srv : Server) (req : Request)
    (slug : string) (genv : GetEnv) (body : PutBody.t) (penv : PutEnv)
    (note : Note.t) (title content password : string) :
  update_admitted srv req slug body penv note title content ->
  expired note (get_now genv) = false ->
  isProtected note = true ->
  PutBody.currentPassword body = Some password ->
  (forall p : string,
     bcrypt_compare p (default "" (Note.passwordHash note)) = true ->
     no_space p = false) ->
  bcrypt_compare password (default "" (Note.passwordHash note)) = true
  /\ no_space password = false
  /\ snd (PUT srv req slug body penv)
     = snd (PUT_apply (notes srv) slug note title content body penv)
  /\ status (snd (PUT srv req slug body penv)) <> 401
  /\ (forall req' : Request,
        snd (applyRateLimit MAX_REQUESTS_NOTE (noteLimits srv) req'
               (get_limit_now genv)) = None ->
        snd (GET srv req' slug genv) = message_response 401 "Password required."
        \/ snd (GET srv req' slug genv) = message_response 401 "Invalid password.")
  /\ (forall i f : option string,
        let sent := mkRequest i f (Some ("Bearer " +:+ password)) in
        snd (applyRateLimit MAX_REQUESTS_NOTE (noteLimits srv) sent
               (get_limit_now genv)) = None ->
        bearerToken sent = Some (before_space password)
        /\ before_space password <> password
        /\ snd (GET srv sent slug genv)
           = message_response 401
               (if truthy (before_space password) then "Invalid password."
                else "Password required.")).
Proof.
  intros Hadm Hexp Hprot Hcp Honly.
  pose proof Hadm as (_ & _ & _ & _ & _ & _ & Hfind & _ & Hauth).
  unfold authorized in Hauth. rewrite Hprot, Hcp in Hauth.
  apply andb_true_iff in Hauth as [_ Hok].
  assert (Hread : forall req' : Request,
            snd (applyRateLimit MAX_REQUESTS_NOTE (noteLimits srv) req'
                   (get_limit_now genv)) = None ->
            snd (GET srv req' slug genv)
            = match bearerToken req' with
              | Some token =>
                  if truthy token then message_response 401 "Invalid password."
                  else message_response 401 "Password required."
              | None => message_response 401 "Password required."
              end).
  { intros req' Hrl. destruct (GET_passed srv req' slug genv Hrl) as [-> _].
    unfold GET_body. rewrite Hfind, Hexp, Hprot.
    destruct (bearerToken req') as [token|] eqn:Htok; [|done].
    destruct (truthy token); [|done]. simpl.
    destruct (bcrypt_compare token _) eqn:Hcmp; [|done].
    apply Honly in Hcmp. apply bearerToken_no_space in Htok. congruence. }
  split; [exact Hok|]. split; [by apply Honly|].
  destruct (PUT_admitted srv req slug body penv note title content Hadm)
    as [Hput _].
  split; [exact Hput|]. split.
  { rewrite Hput. by apply PUT_apply_status. }
  split.
  - intros req' Hrl. rewrite (Hread req' Hrl).
    destruct (bearerToken req') as [token|]; [|by left].
    destruct (truthy token); [by right | by left].
  - intros i f sent Hrl.
    assert (Htok : bearerToken sent = Some (before_space password)).
    { assert (Hsplit : split_space "" ("Bearer " +:+ password)
                       = "Bearer" :: split_space "" password) by reflexivity.
      unfold bearerToken, sent. cbn [authorization]. rewrite Hsplit.
      destruct (split_space_head "" password) as [rest ->]. reflexivity. }
    split; [exact Htok|]. split.
    + intros Heq. pose proof (before_space_no_space password) as Hb.
      rewrite Heq in Hb. pose proof (Honly password Hok). congruence.
    + rewrite (Hread sent Hrl), Htok. by destruct (truthy _).
Qed.

End SpacedPassword.

(** C4 at the note "spaced", whose password is "my pass": the verification
    of the password succeeds and an update with it is answered with 200; a
    read with the header "Bearer my pass" verifies "my" and is answered
    with 401 "Invalid password.". *)
Lemma C4_read_refuses_password_with_space_witness :
  Sample.bcrypt_compare "my pass"
    (default "" (Note.passwordHash Spaced.note)) = true
  /\ status (snd (PUT (caps := Sample.caps) Spaced.server
                    (Sample.bearer "my pass") "spaced"
                    (Sample.put_body "T" "B" (Some "my pass") Omitted)
                    Sample.put_env))
     = 200
  /\ bearerToken (Sample.bearer "my pass") = Some "my"
  /\ snd (GET (caps := Sample.caps) Spaced.server (Sample.bearer "my pass")
            "spaced" Sample.get_env)
     = message_response 401 "Invalid password.".
Proof.
  assert (Honly : forall p : string,
            bcrypt_compare (Capabilities := Sample.caps) p
              (default "" (Note.passwordHash Spaced.note)) = true ->
            no_space p = false).
  { intros p Hp. change (String.eqb "my pass" p = true) in Hp.
    apply String.eqb_eq in Hp. by subst p. }
  destruct (C4_read_refuses_password_with_space (caps := Sample.caps)
              Spaced.server (Sample.bearer "my pass") "spaced" Sample.get_env
              (Sample.put_body "T" "B" (Some "my pass") Omitted) Sample.put_env
              Spaced.note "T" "B" "my pass")
    as (Hok & _ & Hput & _ & _ & Hsent); try reflexivity; try exact Honly.
  { repeat split; reflexivity. }
  destruct (Hsent (Some "10.0.0.1") None eq_refl) as (Htok & _ & Hget).
  split; [exact Hok|]. split; [by rewrite Hput|].
  split; [exact Htok | exact Hget].
Defined.

(** ** C6: the [expiresAt] directive of an update *)

Section C6.
Context {caps : Capabilities}.

Lemma updated_expiresAt (note : Note.t) (title content : string)
    (body : PutBody.t) (env : PutEnv) :
  Note.expiresAt (updated note title content body env)
  = match resolveExpiresAt (PutBody.expiresAt body) (put_directive_now env) with
    | SetTo x => x
    | _ => Note.expiresAt note
    end.
Proof. reflexivity. Qed.

Lemma sameExpiresAt_None (note : Note.t) (directive : Directive) :
  sameExpiresAt note directive = None ->
  Note.expiresAt note = Some InvalidDate /\ directive <> Omitted.
Proof.
  unfold sameExpiresAt.
  destruct directive, (Note.expiresAt note) as [[|]|]; done.
Qed.

(** C6.  An update that has passed the limiter, validation, lookup,
    expiration check and access gate resolves [expiresAt] as follows:
    [null] clears the stored expiration; a string that parses to a time
    strictly after the current one sets the expiration to that time; a
    string that parses to a time at or before the current one is answered
    with 400 "Expiration date must be in the future." and nothing is
    written; an omitted [expiresAt] leaves the stored expiration as it
    was.  In the three cases that are not rejected the answer is 200. *)
Theorem C6_expiresAt_directive (srv : Server) (req : Request) (slug : string)
    (body : PutBody.t) (env : PutEnv) (note : Note.t) (title content : string) :
  update_admitted srv req slug body env note title content ->
  let srv' := fst (PUT srv req slug body env) in
  let answer := snd (PUT srv req slug body env) in
  let stored := updated note title content body env in
  (PutBody.expiresAt body = Null ->
     status answer = 200
     /\ findOne (notes srv') slug = Some stored
     /\ Note.expiresAt stored = None)
  /\ (forall (s : string) (t : Z),
        PutBody.expiresAt body = Text s -> truthy s = true ->
        parseDate s = ValidDate t ->
        (put_directive_now env < t ->
           status answer = 200
           /\ findOne (notes srv') slug = Some stored
           /\ Note.expiresAt stored = Some (ValidDate t))
        /\ (t <= put_directive_now env ->
              answer = message_response 400 "Expiration date must be in the future."
              /\ notes srv' = notes srv))
  /\ (PutBody.expiresAt body = Omitted ->
        status answer = 200
        /\ findOne (notes srv') slug = Some stored
        /\ Note.expiresAt stored = Note.expiresAt note).
Proof.
  intros Hadm srv' answer stored.
  destruct (PUT_admitted srv req slug body env note title content Hadm)
    as [Hans Hnotes].
  destruct Hadm as (_ & _ & _ & _ & _ & _ & Hfind & _ & _).
  pose proof (PUT_apply_spec (notes srv) slug note title content body env Hfind)
    as Hspec.
  pose proof (updated_expiresAt note title content body env) as Hexp.
  fold stored in Hexp. fold stored in Hspec.
  subst srv' answer. rewrite Hans, Hnotes. clear Hans Hnotes.
  split; [|split].
  - intros Hd.
    assert (Hr : resolveExpiresAt (PutBody.expiresAt body) (put_directive_now env)
                 = SetTo None) by (by rewrite Hd).
    rewrite Hr in Hspec, Hexp.
    destruct Hspec as [Hnew [H200 | (_ & Hsame & Hthrow)]]; [done|].
    apply sameExpiresAt_None in Hthrow as [Hinv _].
    rewrite Hsame in Hexp. congruence.
  - intros s t Hd Hs Hparse.
    assert (Hr : resolveExpiresAt (PutBody.expiresAt body) (put_directive_now env)
                 = if t <=? put_directive_now env then Reject
                   else SetTo (Some (ValidDate t))).
    { rewrite Hd. unfold resolveExpiresAt. by rewrite Hs, Hparse. }
    rewrite Hr in Hspec, Hexp. split; intros Ht.
    + destruct (Z.leb_spec t (put_directive_now env)); [lia|].
      destruct Hspec as [Hnew [H200 | (_ & Hsame & Hthrow)]]; [done|].
      apply sameExpiresAt_None in Hthrow as [Hinv _].
      rewrite Hsame in Hexp. congruence.
    + destruct (Z.leb_spec t (put_directive_now env)); [|lia].
      by rewrite Hspec.
  - intros Hd.
    assert (Hr : resolveExpiresAt (PutBody.expiresAt body) (put_directive_now env)
                 = Keep) by (by rewrite Hd).
    rewrite Hr in Hspec, Hexp.
    destruct Hspec as [Hnew [H200 | (_ & _ & Hthrow)]]; [done|].
    apply sameExpiresAt_None in Hthrow as [_ Hne]. by rewrite Hd in Hne.
Qed.

End C6.

(** C6 at the sample server: [null] clears the expiration of the note
    "open". *)
Lemma C6_expiresAt_directive_witness :
  let srv' := fst (PUT (caps := Sample.caps) Sample.server Sample.anyone "open"
                     (Sample.put_body "T" "B" None Null) Sample.put_env) in
  exists stored : Note.t,
    findOne (notes srv') "open" = Some stored /\ Note.expiresAt stored = None.
Proof.
  pose proof (C6_expiresAt_directive (caps := Sample.caps) Sample.server
                Sample.anyone "open" (Sample.put_body "T" "B" None Null)
                Sample.put_env Sample.open_note "T" "B") as Hc6.
  destruct Hc6 as (Hnull & _).
  - repeat split; reflexivity.
  - destruct (Hnull eq_refl) as (_ & Hfind & Hexp). eexists. split; eassumption.
Defined.

(** Update sets a future expiration and refuses a past one. *)
Example PUT_expiresAt_future_and_past :
  let put d := PUT (caps := Sample.caps) Sample.server Sample.anyone "locked"
                 (Sample.put_body "T" "A" (Some "s3cret") d) Sample.put_env in
  (Note.expiresAt <$> findOne (notes (fst (put (Text "2030-01-01T00:00:00.000Z"))))
                        "locked")
  = Some (Some (ValidDate Sample.y2030))
  /\ snd (put (Text "2010-01-01T00:00:00.000Z"))
     = message_response 400 "Expiration date must be in the future."
  /\ notes (fst (put (Text "2010-01-01T00:00:00.000Z"))) = notes Sample.server.
Proof. repeat split; reflexivity. Qed.

(** ** C2: the history append law *)

Section C2.
Context {caps : Capabilities}.

Lemma limiter_answer_status (maxRequests : Z) (store : gmap string ClientData)
    (req : Request) (now : Z) (r : Response) :
  snd (applyRateLimit maxRequests store req now) = Some r -> status r = 429.
Proof.
  rewrite applyRateLimit_answer. cbv zeta.
  destruct (_ <? _); [|done]. by intros [= <-].
Qed.

(** An update answered with 200 went through every gate. *)
Lemma PUT_200_admitted (srv : Server) (req : Request) (slug : string)
    (body : PutBody.t) (env : PutEnv) :
  status (snd (PUT srv req slug body env)) = 200 ->
  exists (note : Note.t) (title content : string),
    update_admitted srv req slug body env note title content.
Proof.
  intros H200.
  destruct (snd (applyRateLimit MAX_REQUESTS_NOTE (noteLimits srv) req
                   (put_limit_now env))) as [r|] eqn:Hrl.
  { destruct (PUT_guarded srv req slug body env) as [_ Hr].
    rewrite (Hr r Hrl) in H200.
    apply limiter_answer_status in Hrl. congruence. }
  destruct (PUT_passed srv req slug body env Hrl) as [Hans _].
  rewrite Hans in H200. clear Hans. unfold PUT_body in H200.
  destruct (PutBody.title body) as [title|] eqn:Ht; [|done].
  destruct (PutBody.content body) as [content|] eqn:Hc; [|done].
  destruct (truthy title) eqn:Htt; [|done].
  destruct (truthy content) eqn:Hct; [|done].
  simpl in H200.
  destruct (isProfane _) eqn:Hprof; [done|].
  destruct (findOne (notes srv) slug) as [note|] eqn:Hfind; [|done].
  destruct (expired note _) eqn:Hexp; [done|].
  exists note, title, content. unfold update_admitted, authorized.
  repeat (split; [done|]).
  destruct (isProtected note); [|done].
  destruct (PutBody.currentPassword body) as [c|]; [|done].
  destruct (truthy c); [|done]. simpl in *.
  by destruct (bcrypt_compare c _).
Qed.

(** C2.  An update answered with 200 found a stored note, and the history
    of the document it leaves is the history it found with one entry, the
    content sent and the time of the update, added at the end if the
    content sent differs from the content found, and the history it found
    unchanged if not: an entry is appended exactly when the content
    differs, whatever happens to title, password and expiration, and the
    entries that were there stay as they were. *)
Theorem C2_history_append (srv : Server) (req : Request) (slug : string)
    (body : PutBody.t) (env : PutEnv) :
  status (snd (PUT srv req slug body env)) = 200 ->
  exists (note : Note.t) (title content : string),
    findOne (notes srv) slug = Some note
    /\ PutBody.title body = Some title
    /\ PutBody.content body = Some content
    /\ findOne (notes (fst (PUT srv req slug body env))) slug
       = Some (updated note title content body env)
    /\ (Note.content note <> content ->
          Note.history (updated note title content body env)
          = (Note.history note
             ++ [NoteContent.mk content (put_history_now env)])%list)
    /\ (Note.content note = content ->
          Note.history (updated note title content body env) = Note.history note)
    /\ (length (Note.history (updated note title content body env))
        = S (length (Note.history note))
        <-> Note.content note <> content)
    /\ Note.history note `prefix_of`
         Note.history (updated note title content body env).
Proof.
  intros H200.
  destruct (PUT_200_admitted srv req slug body env H200)
    as (note & title & content & Hadm).
  exists note, title, content.
  destruct (PUT_admitted srv req slug body env note title content Hadm)
    as [Hans Hnotes].
  destruct Hadm as (_ & Ht & _ & Hc & _ & _ & Hfind & _ & _).
  pose proof (PUT_apply_spec (notes srv) slug note title content body env Hfind)
    as Hspec.
  rewrite Hans in H200. rewrite Hnotes.
  assert (Hnew : findOne (PUT_apply (notes srv) slug note title content body
                            env).1 slug
                 = Some (updated note title content body env)).
  { destruct (resolveExpiresAt _ _); try apply Hspec.
    rewrite Hspec in H200. done. }
  assert (Hhist : Note.history (updated note title content body env)
                  = if String.eqb (Note.content note) content
                    then Note.history note
                    else (Note.history note
                          ++ [NoteContent.mk content (put_history_now env)])%list).
  { unfold updated, updateDoc, historyPush. simpl.
    by destruct (String.eqb (Note.content note) content). }
  repeat (split; [done|]). rewrite Hhist.
  destruct (String.eqb_spec (Note.content note) content) as [Heq|Hne].
  - split; [done|]. split; [done|]. split; [|done]. split; [lia | done].
  - split; [done|]. split; [done|]. split.
    + rewrite length_app. simpl. split; [done | lia].
    + by apply prefix_app_r.
Qed.

End C2.

(** C2 at the sample server: a new content adds an entry to the history of
    the note "open", a new title alone adds none. *)
Lemma C2_history_append_witness :
  let put title content :=
    PUT (caps := Sample.caps) Sample.server Sample.anyone "open"
      (Sample.put_body title content None Omitted) Sample.put_env in
  (Note.history <$> findOne (notes (fst (put "T" "B"))) "open")
  = Some [NoteContent.mk "A" Sample.y2010; NoteContent.mk "B" Sample.today]
  /\ (Note.history <$> findOne (notes (fst (put "T2" "A"))) "open")
     = Some [NoteContent.mk "A" Sample.y2010].
Proof.
  cbv zeta. split.
  - destruct (C2_history_append (caps := Sample.caps) Sample.server
                Sample.anyone "open" (Sample.put_body "T" "B" None Omitted)
                Sample.put_env eq_refl)
      as (note & title & content & Hfind & Ht & Hc & Hnew & Happ & _).
    injection Hfind as <-. injection Hc as <-. injection Ht as <-.
    rewrite Hnew. cbn [fmap option_fmap option_map]. apply (f_equal Some).
    rewrite Happ; [reflexivity | discriminate].
  - destruct (C2_history_append (caps := Sample.caps) Sample.server
                Sample.anyone "open" (Sample.put_body "T2" "A" None Omitted)
                Sample.put_env eq_refl)
      as (note & title & content & Hfind & Ht & Hc & Hnew & _ & Hsame & _).
    injection Hfind as <-. injection Hc as <-. injection Ht as <-.
    rewrite Hnew. cbn [fmap option_fmap option_map]. apply (f_equal Some).
    rewrite Hsame; reflexivity.
Defined.

(** ** What Read and History-read hand to [NextResponse.json] *)

Section Views.
Context {caps : Capabilities}.

(** A read answered with 200 answers with the view of a stored note. *)
Lemma GET_200 (srv : Server) (req : Request) (slug : string) (env : GetEnv) :
  status (snd (GET srv req slug env)) = 200 ->
  exists note : Note.t,
    findOne (notes srv) slug = Some note
    /\ snd (GET srv req slug env) = GET_respond note.
Proof.
  intros H200.
  destruct (snd (applyRateLimit MAX_REQUESTS_NOTE (noteLimits srv) req
                   (get_limit_now env))) as [r|] eqn:Hrl.
  { destruct (GET_guarded srv req slug env) as [_ Hr].
    rewrite (Hr r Hrl) in H200.
    apply limiter_answer_status in Hrl. congruence. }
  destruct (GET_passed srv req slug env Hrl) as [Hans _].
  rewrite Hans in *. clear Hans. unfold GET_body in *.
  destruct (findOne (notes srv) slug) as [note|]; [|done].
  exists note. split; [done|].
  destruct (expired note _); [done|].
  destruct (isProtected note); [|done].
  destruct (bearerToken req) as [token|]; [|done].
  destruct (truthy token); [|done]. simpl in *.
  by destruct (bcrypt_compare token _).
Qed.

Lemma history_GET_200 (srv : Server) (req : Request) (slug : string)
    (env : GetEnv) :
  status (snd (history_GET srv req slug env)) = 200 ->
  exists note : Note.t,
    findOne (notes srv) slug = Some note
    /\ snd (history_GET srv req slug env) = history_respond note.
Proof.
  intros H200.
  destruct (snd (applyRateLimit MAX_REQUESTS_HISTORY (historyLimits srv) req
                   (get_limit_now env))) as [r|] eqn:Hrl.
  { destruct (history_GET_guarded srv req slug env) as [_ Hr].
    rewrite (Hr r Hrl) in H200.
    apply limiter_answer_status in Hrl. congruence. }
  destruct (history_GET_passed srv req slug env Hrl) as [Hans _].
  rewrite Hans in *. clear Hans. unfold history_GET_body in *.
  destruct (findOne (notes srv) slug) as [note|]; [|done].
  exists note. split; [done|].
  destruct (expired note _); [done|].
  destruct (isProtected note); [|done].
  destruct (bearerToken req) as [token|]; [|done].
  destruct (truthy token); [|done]. simpl in *.
  by destruct (bcrypt_compare token _).
Qed.

(** What the two reads hand to [NextResponse.json].  A read answered with
    200 hands over [{ note }], where [note] is the object of the six
    members title, content, isProtected, createdAt, updatedAt and expiresAt
    of the stored note, [expiresAt] holding [undefined] for a note without
    expiration; a history read answered with 200 hands over the object of
    title, history and isProtected, every history item being an object of
    content and timestamp.  The stored digest enters neither but through
    isProtected. *)
Lemma views_handed_to_json (srv : Server) (req : Request) (slug : string) (env : GetEnv) :
  (status (snd (GET srv req slug env)) = 200 ->
   exists (note : Note.t) (view : JsVal),
     findOne (notes srv) slug = Some note
     /\ body (snd (GET srv req slug env)) = JObj [("note", view)]
     /\ view
        = JObj [("title", JStr (Note.title note));
                ("content", JStr (Note.content note));
                ("isProtected", JBool (isProtected note));
                ("createdAt", JStr (toISOString (Note.createdAt note)));
                ("updatedAt", JStr (toISOString (Note.updatedAt note)));
                ("expiresAt",
                 match Note.expiresAt note with
                 | Some (ValidDate t) => JStr (toISOString t)
                 | _ => JUndefined
                 end)]
     /\ field_names view
        = ["title"; "content"; "isProtected"; "createdAt"; "updatedAt";
           "expiresAt"]
     /\ forall h : option string,
          truthy_opt h = isProtected note ->
          GET_respond (with_passwordHash note h) = snd (GET srv req slug env))
  /\ (status (snd (history_GET srv req slug env)) = 200 ->
      exists note : Note.t,
        findOne (notes srv) slug = Some note
        /\ body (snd (history_GET srv req slug env))
           = JObj [("title", JStr (Note.title note));
                   ("history", JArr (historyResponse (Note.history note)));
                   ("isProtected", JBool (isProtected note))]
        /\ field_names (body (snd (history_GET srv req slug env)))
           = ["title"; "history"; "isProtected"]
        /\ Forall (fun item => field_names item = ["content"; "timestamp"])
             (historyResponse (Note.history note))
        /\ forall h : option string,
             truthy_opt h = isProtected note ->
             history_respond (with_passwordHash note h)
             = snd (history_GET srv req slug env)).
Proof.
  split; intros H200.
  - destruct (GET_200 srv req slug env H200) as (note & Hfind & Hans).
    rewrite Hans in *. unfold GET_respond, noteResponse in *.
    destruct (Note.expiresAt note) as [[t|]|] eqn:Hexp; [| done |].
    all: eexists note, _; rewrite Hexp; split; [done|]; split; [reflexivity|].
    all: split; [reflexivity|]; split; [reflexivity|].
    all: intros h Hh; unfold with_passwordHash, isProtected in *; simpl.
    all: by rewrite Hexp, Hh.
  - destruct (history_GET_200 srv req slug env H200) as (note & Hfind & Hans).
    rewrite Hans. exists note. split; [done|]. split; [reflexivity|].
    split; [reflexivity|]. split.
    + unfold historyResponse. apply Forall_forall. intros item Hin.
      apply list_elem_of_fmap in Hin as (entry & -> & _). reflexivity.
    + intros h Hh. unfold history_respond, with_passwordHash, isProtected in *.
      simpl. by rewrite Hh.
Qed.

End Views.

(** ** C8: the views as their caller receives them *)

Section ReceivedViews.
Context {caps : Capabilities}.

Lemma to_json_historyResponse (entries : list NoteContent.t) :
  to_json (JArr (historyResponse entries)) = JArr (historyResponse entries).
Proof.
  cbn [to_json]. f_equal. unfold historyResponse.
  induction entries as [|entry entries IH]; [done|].
  cbn [map]. by rewrite IH.
Qed.

(** C8.  What the caller of a read receives.  A read answered with 200 is
    received as [{ note }], where [note] is the object of the members
    title, content, isProtected, createdAt and updatedAt of the stored
    note, followed by expiresAt when the note has an expiration and by
    nothing when it has none; a history read answered with 200 is received
    as the object of title, history and isProtected, every history item
    being an object of content and timestamp.  The stored digest enters
    neither answer but through isProtected: a note with any other digest,
    protected alike, gets the same answer. *)
Theorem C8_received_views (srv : Server) (req : Request) (slug : string)
    (env : GetEnv) :
  (status (snd (GET srv req slug env)) = 200 ->
   exists (note : Note.t) (view : JsVal),
     findOne (notes srv) slug = Some note
     /\ received (snd (GET srv req slug env)) = JObj [("note", view)]
     /\ view
        = JObj ([("title", JStr (Note.title note));
                 ("content", JStr (Note.content note));
                 ("isProtected", JBool (isProtected note));
                 ("createdAt", JStr (toISOString (Note.createdAt note)));
                 ("updatedAt", JStr (toISOString (Note.updatedAt note)))]
                ++ match Note.expiresAt note with
                   | Some (ValidDate t) => [("expiresAt", JStr (toISOString t))]
                   | _ => []
                   end)%list
     /\ Note.expiresAt note <> Some InvalidDate
     /\ field_names view
        = (["title"; "content"; "isProtected"; "createdAt"; "updatedAt"]
           ++ match Note.expiresAt note with
              | Some _ => ["expiresAt"]
              | None => []
              end)%list
     /\ forall h : option string,
          truthy_opt h = isProtected note ->
          GET_respond (with_passwordHash note h) = snd (GET srv req slug env))
  /\ (status (snd (history_GET srv req slug env)) = 200 ->
      exists note : Note.t,
        findOne (notes srv) slug = Some note
        /\ received (snd (history_GET srv req slug env))
           = JObj [("title", JStr (Note.title note));
                   ("history", JArr (historyResponse (Note.history note)));
                   ("isProtected", JBool (isProtected note))]
        /\ field_names (received (snd (history_GET srv req slug env)))
           = ["title"; "history"; "isProtected"]
        /\ Forall (fun item => field_names item = ["content"; "timestamp"])
             (historyResponse (Note.history note))
        /\ forall h : option string,
             truthy_opt h = isProtected note ->
             history_respond (with_passwordHash note h)
             = snd (history_GET srv req slug env)).
Proof.
  destruct (views_handed_to_json srv req slug env) as [Hget Hhist].
  split; intros H200.
  - destruct (Hget H200) as (note & view & Hfind & Hbody & -> & _ & Hdigest).
    assert (Hvalid : Note.expiresAt note <> Some InvalidDate).
    { intros Hinv. destruct (GET_200 srv req slug env H200) as (n & Hf & Hans).
      assert (n = note) by congruence. subst n. rewrite Hans in H200.
      unfold GET_respond, noteResponse in H200. by rewrite Hinv in H200. }
    eexists note, _. split; [exact Hfind|]. unfold received. rewrite Hbody.
    split; [|split; [reflexivity|]].
    + destruct (Note.expiresAt note) as [[t|]|]; [reflexivity | done | reflexivity].
    + split; [exact Hvalid|]. split; [|exact Hdigest].
      by destruct (Note.expiresAt note) as [[t|]|].
  - destruct (Hhist H200) as (note & Hfind & Hbody & _ & Hitems & Hdigest).
    exists note. split; [exact Hfind|]. unfold received. rewrite Hbody.
    assert (Hjson : to_json
                      (JObj [("title", JStr (Note.title note));
                             ("history",
                              JArr (historyResponse (Note.history note)));
                             ("isProtected", JBool (isProtected note))])
                    = JObj [("title", JStr (Note.title note));
                            ("history",
                             JArr (historyResponse (Note.history note)));
                            ("isProtected", JBool (isProtected note))]).
    { pose proof (to_json_historyResponse (Note.history note)) as Hh.
      cbn [to_json] in *. by rewrite Hh. }
    rewrite Hjson. done.
Qed.

End ReceivedViews.

(** C8 at the sample server: the public note "open" expires in 2030, and
    its view is received with six members; its history is received with
    three. *)
Lemma C8_received_views_witness :
  field_names
    (default JUndefined
       (get_field "note"
          (received (snd (GET (caps := Sample.caps) Sample.server
                            Sample.anyone "open" Sample.get_env)))))
  = ["title"; "content"; "isProtected"; "createdAt"; "updatedAt"; "expiresAt"]
  /\ field_names
       (received (snd (history_GET (caps := Sample.caps) Sample.server
                         Sample.anyone "open" Sample.get_env)))
     = ["title"; "history"; "isProtected"].
Proof.
  destruct (C8_received_views (caps := Sample.caps) Sample.server
              Sample.anyone "open" Sample.get_env) as [Hget Hhist].
  destruct (Hget eq_refl) as (note & view & Hfind & Hbody & _ & _ & Hnames & _).
  destruct (Hhist eq_refl) as (note' & _ & _ & Hnames' & _).
  split; [|exact Hnames'].
  rewrite Hbody. injection Hfind as <-. exact Hnames.
Defined.

(** The view of a note without expiration has no member expiresAt: the
    protected note "locked" never expires, and the view that a read with
    its password receives has five members. *)
Lemma C8_no_expiration_counterexample :
  Note.expiresAt Sample.locked_note = None
  /\ status (snd (GET (caps := Sample.caps) Sample.server
                    (Sample.bearer "s3cret") "locked" Sample.get_env))
     = 200
  /\ received (snd (GET (caps := Sample.caps) Sample.server
                      (Sample.bearer "s3cret") "locked" Sample.get_env))
     = JObj [("note",
              JObj [("title", JStr "T"); ("content", JStr "A");
                    ("isProtected", JBool true);
                    ("createdAt", JStr "2010-01-01T00:00:00.000Z");
                    ("updatedAt", JStr "2010-01-01T00:00:00.000Z")])]
  /\ get_field "expiresAt"
       (default JUndefined
          (get_field "note"
             (received (snd (GET (caps := Sample.caps) Sample.server
                               (Sample.bearer "s3cret") "locked"
                               Sample.get_env)))))
     = None.
Proof. repeat split; reflexivity. Qed.

(** ** C9: what Create persists and returns *)

Lemma findOne_insertOne (notes : list Note.t) (n : Note.t) :
  findOne notes (Note.slug n) = None ->
  findOne (insertOne notes n) (Note.slug n) = Some n.
Proof.
  unfold insertOne. induction notes as [|m r IH]; simpl.
  - by rewrite String.eqb_refl.
  - destruct (String.eqb (Note.slug m) (Note.slug n)); [done | exact IH].
Qed.

Section C9.
Context {caps : Capabilities}.

(** C9.  A create answered with 201 had a title and a content, the
    allocator gave it a slug for [customSlug || title], and the collection
    is the old one with one new note at its end: the note of that slug,
    title and content, whose history is the single entry of the content at
    the creation time and whose [createdAt] and [updatedAt] are that same
    time.  The answer carries the slug, and the slug, which was free,
    now finds the new note. *)
Theorem C9_create (srv : Server) (req : Request) (body0 : PostBody.t)
    (env : PostEnv) (srv' : Server) (answer : Response) :
  POST srv req body0 env = Some (srv', answer) ->
  status answer = 201 ->
  exists (title content finalSlug : string) (note : Note.t),
    PostBody.title body0 = Some title
    /\ PostBody.content body0 = Some content
    /\ generateUniqueSlug (post_fuel env) (notes srv)
         (js_or (PostBody.customSlug body0) (Some title)) (post_draw env)
       = Some finalSlug
    /\ notes srv' = (notes srv ++ [note])%list
    /\ Note.slug note = finalSlug
    /\ Note.title note = title
    /\ Note.content note = content
    /\ Note.history note = [NoteContent.mk content (noteCreationTime env)]
    /\ Note.createdAt note = noteCreationTime env
    /\ Note.updatedAt note = noteCreationTime env
    /\ get_field "slug" (body answer) = Some (JStr finalSlug)
    /\ findOne (notes srv) finalSlug = None
    /\ findOne (notes srv') finalSlug = Some note.
Proof.
  intros Hpost H201.
  destruct (snd (applyRateLimit MAX_REQUESTS_CREATE (createLimits srv) req
                   (post_limit_now env))) as [r|] eqn:Hrl.
  { pose proof (POST_guarded srv req body0 env) as Hg. rewrite Hpost in Hg.
    destruct Hg as [_ Hr]. rewrite (Hr r Hrl) in H201.
    apply limiter_answer_status in Hrl. congruence. }
  rewrite (POST_passed srv req body0 env Hrl) in Hpost.
  apply fmap_Some in Hpost as ([notes' r] & Hbody & [= -> ->]). simpl in *.
  unfold POST_body in Hbody.
  destruct (PostBody.title body0) as [title|];
    [|injection Hbody as <- <-; discriminate H201].
  destruct (PostBody.content body0) as [content|];
    [|injection Hbody as <- <-; discriminate H201].
  destruct (negb (truthy title) || negb (truthy content));
    [injection Hbody as <- <-; discriminate H201|].
  destruct (isProfane _); [injection Hbody as <- <-; discriminate H201|].
  destruct (generateUniqueSlug _ _ _ _) as [finalSlug|] eqn:Hslug; [|done].
  pose proof (generateUniqueSlug_free _ _ _ _ _ Hslug) as Hfree.
  assert (Hcreated : forall e : option JsDate,
    let note :=
      Note.mk finalSlug title content
        match PostBody.password body0 with
        | Some p =>
            if truthy p then Some (bcrypt_hash p (post_salt env)) else None
        | None => None
        end (noteCreationTime env) (noteCreationTime env) e
        [NoteContent.mk content (noteCreationTime env)] in
    insertOne (notes srv) note = (notes srv ++ [note])%list
    /\ findOne (insertOne (notes srv) note) finalSlug = Some note).
  { intros e note. split; [reflexivity|]. by apply (findOne_insertOne _ note). }
  exists title, content, finalSlug.
  assert (Hdone : forall e : option JsDate,
    r = mkResponse 201
          (JObj [("message", JStr "Note created successfully!");
                 ("slug", JStr finalSlug); ("id", JStr (insertedId env))]) [] ->
    notes' = insertOne (notes srv)
               (Note.mk finalSlug title content
                  match PostBody.password body0 with
                  | Some p =>
                      if truthy p then Some (bcrypt_hash p (post_salt env))
                      else None
                  | None => None
                  end (noteCreationTime env) (noteCreationTime env) e
                  [NoteContent.mk content (noteCreationTime env)]) ->
    exists note : Note.t,
      Some title = Some title /\ Some content = Some content
      /\ generateUniqueSlug (post_fuel env) (notes srv)
           (js_or (PostBody.customSlug body0) (Some title)) (post_draw env)
         = Some finalSlug
      /\ notes' = (notes srv ++ [note])%list
      /\ Note.slug note = finalSlug /\ Note.title note = title
      /\ Note.content note = content
      /\ Note.history note = [NoteContent.mk content (noteCreationTime env)]
      /\ Note.createdAt note = noteCreationTime env
      /\ Note.updatedAt note = noteCreationTime env
      /\ get_field "slug" (body r) = Some (JStr finalSlug)
      /\ findOne (notes srv) finalSlug = None
      /\ findOne notes' finalSlug = Some note).
  { intros e -> ->. eexists. do 2 (split; [reflexivity|]).
    split; [exact Hslug|]. repeat (split; [reflexivity|]).
    split; [exact Hfree|]. apply Hcreated. }
  destruct (PostBody.expiresAt body0) as [s|].
  - destruct (truthy s).
    + destruct (date_gt _ _).
      * injection Hbody as <- <-. exact (Hdone _ eq_refl eq_refl).
      * injection Hbody as <- <-. discriminate H201.
    + injection Hbody as <- <-. exact (Hdone _ eq_refl eq_refl).
  - injection Hbody as <- <-. exact (Hdone _ eq_refl eq_refl).
Qed.

End C9.

(** C9 at the sample server: a note "Hello World" is created under the
    slug "hello-world". *)
Lemma C9_create_witness :
  exists (srv' : Server) (answer : Response) (note : Note.t),
    POST (caps := Sample.caps) Sample.server Sample.anyone
      (PostBody.mk (Some "Hello World") (Some "# Hi") None None None)
      Sample.post_env
    = Some (srv', answer)
    /\ get_field "slug" (body answer) = Some (JStr "hello-world")
    /\ findOne (notes srv') "hello-world" = Some note
    /\ Note.history note = [NoteContent.mk "# Hi" Sample.today]
    /\ Note.createdAt note = Sample.today
    /\ Note.updatedAt note = Sample.today.
Proof.
  destruct (POST (caps := Sample.caps) Sample.server Sample.anyone
              (PostBody.mk (Some "Hello World") (Some "# Hi") None None None)
              Sample.post_env) as [[srv' answer]|] eqn:Hpost;
    [|vm_compute in Hpost; discriminate].
  assert (H201 : status answer = 201).
  { vm_compute in Hpost. by injection Hpost as <- <-. }
  destruct (C9_create (caps := Sample.caps) _ _ _ _ _ _ Hpost H201)
    as (title & content & finalSlug & note & Ht & Hc & Hslug & _ & _ & _ & _
        & Hhist & Hcr & Hup & Hans & _ & Hfind).
  injection Ht as <-. injection Hc as <-.
  vm_compute in Hslug. injection Hslug as <-.
  exists srv', answer, note. repeat split; assumption.
Defined.

(** ** C5: titles and contents of white space only *)

(** C5 on the code.  The handlers test [!title || !content] on the strings
    as they were sent: a title of one space is not empty, so Create stores
    a note with it (201) and Update writes it over the title of the note
    "open" (200), although it is empty after trimming. *)
Theorem C5_whitespace_title_accepted :
  trim " " = ""
  /\ (exists (srv' : Server) (answer : Response) (note : Note.t),
        POST (caps := Sample.caps) Sample.server Sample.anyone
          (PostBody.mk (Some " ") (Some "x") None None None) Sample.post_env
        = Some (srv', answer)
        /\ status answer = 201
        /\ notes srv' = (notes Sample.server ++ [note])%list
        /\ Note.title note = " ")
  /\ status (snd (PUT (caps := Sample.caps) Sample.server Sample.anyone "open"
                    (Sample.put_body " " "A" None Omitted) Sample.put_env))
     = 200
  /\ (Note.title
        <$> findOne
              (notes (fst (PUT (caps := Sample.caps) Sample.server Sample.anyone
                             "open" (Sample.put_body " " "A" None Omitted)
                             Sample.put_env)))
              "open")
     = Some " ".
Proof.
  split; [reflexivity|]. split; [|split; reflexivity].
  eexists _, _, _. split; [vm_compute; reflexivity|].
  repeat split; reflexivity.
Qed.

Section Validation.
Context {caps : Capabilities}.

(** What the validation of the two handlers does reject: a title or a
    content that is missing or the empty string. *)
Lemma validation_rejects_empty (notes : list Note.t) (slug : string)
    (pbody : PutBody.t) (penv : PutEnv) (body0 : PostBody.t) (env : PostEnv) :
  (truthy_opt (PutBody.title pbody) && truthy_opt (PutBody.content pbody)
   = false ->
   PUT_body notes slug pbody penv
   = (notes, message_response 400 "Title and content are required for update."))
  /\ (truthy_opt (PostBody.title body0) && truthy_opt (PostBody.content body0)
      = false ->
      POST_body notes body0 env
      = Some (notes, message_response 400 "Title and content are required.")).
Proof.
  split; intros Hv.
  - unfold PUT_body.
    destruct (PutBody.title pbody) as [t|], (PutBody.content pbody) as [c|];
      try done.
    simpl in Hv. by destruct (truthy t), (truthy c).
  - unfold POST_body.
    destruct (PostBody.title body0) as [t|], (PostBody.content body0) as [c|];
      try done.
    simpl in Hv. by destruct (truthy t), (truthy c).
Qed.

End Validation.

(** ** Concrete runs of the allocator and of the limiter *)

(** C3 at a collection that holds the slug "a": the proposal [" A "] gets
    the base "a" with the first suffix. *)
Lemma C3_generateUniqueSlug_witness :
  generateUniqueSlug (caps := Sample.caps) 0
    [Note.mk "a" "T" "A" None 0 0 None []] (Some " A ") 0
  = Some "a-0___".
Proof.
  apply (proj1 (proj2 (C3_generateUniqueSlug (caps := Sample.caps) 0
                         [Note.mk "a" "T" "A" None 0 0 None []] (Some " A ") 0
                         "a-0___"))).
  exists 1%nat. split; [vm_compute; lia|]. split; [reflexivity|].
  split; [reflexivity|]. intros j Hj. replace j with 0%nat by lia. discriminate.
Defined.

(** C10 at a client that has made its five requests of the window: the
    sixth, one second later, is turned away from Create. *)
Lemma C10_rate_limiter_witness :
  rejected
    (snd (applyRateLimit MAX_REQUESTS_CREATE
            {[ "10.0.0.1" := mkClientData 5 Sample.today ]} Sample.anyone
            (Sample.today + 1000)))
  = true.
Proof.
  pose proof (C10_rate_limiter (caps := Sample.caps) MAX_REQUESTS_CREATE
                {[ "10.0.0.1" := mkClientData 5 Sample.today ]} Sample.anyone
                (Sample.today + 1000)) as Hc10.
  cbv zeta in Hc10. destruct Hc10 as (_ & _ & _ & Hrej & _).
  apply Hrej. vm_compute. reflexivity.
Defined.

(** Six requests within one window against the limit of Create: five pass,
    the sixth is answered with 429 and the seconds left of the window. *)
Example applyRateLimit_run_six :
  snd (applyRateLimit_run MAX_REQUESTS_CREATE ∅ Sample.anyone
         [0; 1000; 2000; 3000; 4000; 5500])
  = [None; None; None; None; None; Some (tooManyRequests 55)].
Proof. vm_compute. reflexivity. Qed.

(** ** C7: the diff round trip *)

(** The characters of an edit script that [keep] accepts. *)
Lemma segments_text_group (keep : Kind -> bool) (ops : list (Kind * ascii)) :
  segments_text keep (group ops)
  = fold_right (fun op acc => if keep (fst op) then String (snd op) acc else acc)
      EmptyString ops.
Proof.
  induction ops as [|[k c] r IH]; [reflexivity|].
  cbn [group fold_right fst snd]. rewrite <- IH.
  destruct (group r) as [|[k' s] r']; cbn [segments_text].
  - by destruct (keep k).
  - destruct (Kind_eqb k k') eqn:Hk; cbn [segments_text].
    + assert (k = k') as <- by (by destruct k, k').
      by destruct (keep k).
    + by destruct (keep k), (keep k').
Qed.

Lemma edit_script_old (a b : string) :
  fold_right (fun op acc => if in_old (fst op) then String (snd op) acc else acc)
    EmptyString (edit_script a b) = a.
Proof.
  revert b. induction a as [|x a' IHa]; intros b.
  - induction b as [|y b' IHb]; [reflexivity | exact IHb].
  - induction b as [|y b' IHb].
    + cbn [edit_script deletes fold_right fst snd in_old]. f_equal.
      clear IHa. induction a' as [|z a'' IH]; [reflexivity|].
      cbn [deletes fold_right fst snd in_old]. by f_equal.
    + cbn [edit_script]. destruct (Ascii.eqb x y).
      * cbn [fold_right fst snd in_old]. by rewrite IHa.
      * cbv zeta. destruct (_ <=? _)%nat.
        -- cbn [fold_right fst snd in_old]. by rewrite IHa.
        -- cbn [fold_right fst snd in_old]. exact IHb.
Qed.

Lemma edit_script_new (a b : string) :
  fold_right (fun op acc => if in_new (fst op) then String (snd op) acc else acc)
    EmptyString (edit_script a b) = b.
Proof.
  revert b. induction a as [|x a' IHa]; intros b.
  - induction b as [|y b' IHb]; [reflexivity|].
    cbn [edit_script inserts fold_right fst snd in_new]. f_equal. exact IHb.
  - induction b as [|y b' IHb].
    + cbn [edit_script deletes fold_right fst snd in_new].
      clear IHa. induction a' as [|z a'' IH]; [reflexivity | exact IH].
    + cbn [edit_script]. destruct (Ascii.eqb_spec x y) as [->|Hxy].
      * cbn [fold_right fst snd in_new]. by rewrite IHa.
      * cbv zeta. destruct (_ <=? _)%nat.
        -- cbn [fold_right fst snd in_new]. by rewrite IHa.
        -- cbn [fold_right fst snd in_new]. f_equal. exact IHb.
Qed.

Lemma shown_old_render (segs : list (Kind * string)) :
  shown_old (map render (map (fun seg => (diff_type (fst seg), snd seg)) segs))
  = segments_text in_old segs.
Proof.
  induction segs as [|[k s] r IH]; [reflexivity|].
  destruct k; simpl in *; by rewrite IH.
Qed.

Lemma shown_new_render (segs : list (Kind * string)) :
  shown_new (map render (map (fun seg => (diff_type (fst seg), snd seg)) segs))
  = segments_text in_new segs.
Proof.
  induction segs as [|[k s] r IH]; [reflexivity|].
  destruct k; simpl in *; by rewrite IH.
Qed.

(** C7.  For all texts A and B, the texts of the Equal and Delete segments
    of [diff A B], in order, make up A, and those of the Equal and Insert
    segments make up B; so do the texts that [DiffViewer] shows as common
    or deleted, and as common or inserted.  [diff] is a function: equal
    inputs give equal outputs. *)
Theorem C7_diff_round_trip (A B : string) :
  segments_text in_old (diff A B) = A
  /\ segments_text in_new (diff A B) = B
  /\ shown_old (DiffViewer A B) = A
  /\ shown_new (DiffViewer A B) = B
  /\ forall A' B' : string, A = A' -> B = B' -> diff A B = diff A' B'.
Proof.
  assert (Hold : segments_text in_old (diff A B) = A).
  { unfold diff. rewrite segments_text_group. apply edit_script_old. }
  assert (Hnew : segments_text in_new (diff A B) = B).
  { unfold diff. rewrite segments_text_group. apply edit_script_new. }
  split; [exact Hold|]. split; [exact Hnew|].
  unfold DiffViewer. rewrite shown_old_render, shown_new_render.
  split; [exact Hold|]. split; [exact Hnew|].
  by intros A' B' -> ->.
Qed.

(** The diff of two short texts, and what is shown for it. *)
Example diff_cat_cart :
  diff "the cat" "the cart" = [(Equal, "the ca"); (Insert, "r"); (Equal, "t")]
  /\ DiffViewer "the cat" "the cart" = [span "the ca"; ins "r"; span "t"]
  /\ diff "abc" "axc" = [(Equal, "a"); (Delete, "b"); (Insert, "x"); (Equal, "c")].
Proof. repeat split; reflexivity. Qed.

(** * Further properties of the handlers *)

(** ** The collection under [updateOne] and [insertOne] *)

Lemma findOne_None_slugs (notes : list Note.t) (s : string) :
  findOne notes s = None <-> s ∉ map Note.slug notes.
Proof.
  induction notes as [|n r IH]; simpl.
  - split; [intros _; apply not_elem_of_nil | done].
  - rewrite not_elem_of_cons.
    destruct (String.eqb_spec (Note.slug n) s) as [Heq|Hne].
    + split; [done | intros [Hs _]; congruence].
    + rewrite IH. split; [intros Hr; split; [congruence | done] | by intros [_ Hr]].
Qed.

Lemma updateOne_split (notes : list Note.t) (s : string)
    (f : Note.t -> Note.t) (note : Note.t) :
  findOne notes s = Some note ->
  exists front back : list Note.t,
    notes = (front ++ note :: back)%list
    /\ fst (updateOne notes s f) = (front ++ f note :: back)%list.
Proof.
  induction notes as [|n r IH]; simpl; [done|].
  destruct (String.eqb (Note.slug n) s) eqn:Hn.
  - intros [= ->]. by exists [], r.
  - intros Hr. destruct (IH Hr) as (front & back & -> & Hup).
    destruct (updateOne _ s f) as [r' counts]. simpl in *. subst r'.
    by exists (n :: front), back.
Qed.

Lemma updateOne_slugs (notes : list Note.t) (s : string) (f : Note.t -> Note.t) :
  (forall n, Note.slug (f n) = Note.slug n) ->
  map Note.slug (fst (updateOne notes s f)) = map Note.slug notes.
Proof.
  intros Hf. induction notes as [|n r IH]; simpl; [done|].
  destruct (String.eqb (Note.slug n) s); simpl.
  - by rewrite Hf.
  - destruct (updateOne r s f) as [r' counts]. simpl in *. by rewrite IH.
Qed.

Lemma updateOne_same (notes : list Note.t) (s : string) (f : Note.t -> Note.t)
    (note : Note.t) :
  findOne notes s = Some note -> f note = note ->
  fst (updateOne notes s f) = notes.
Proof.
  intros Hfind Hsame.
  destruct (updateOne_split notes s f note Hfind) as (front & back & -> & ->).
  by rewrite Hsame.
Qed.

Lemma findOne_updateOne_other (notes : list Note.t) (s s' : string)
    (f : Note.t -> Note.t) :
  (forall n, Note.slug (f n) = Note.slug n) -> s' <> s ->
  findOne (fst (updateOne notes s f)) s' = findOne notes s'.
Proof.
  intros Hf Hne. induction notes as [|n r IH]; simpl; [done|].
  destruct (String.eqb_spec (Note.slug n) s) as [Heq|Hn]; simpl.
  - rewrite Hf. destruct (String.eqb_spec (Note.slug n) s'); [congruence | done].
  - destruct (updateOne r s f) as [r' counts]. simpl in *. by rewrite IH.
Qed.

Lemma findOne_insertOne_old (notes : list Note.t) (n m : Note.t) (s : string) :
  findOne notes s = Some m -> findOne (insertOne notes n) s = Some m.
Proof.
  unfold insertOne. induction notes as [|k r IH]; simpl; [done|].
  by destruct (String.eqb (Note.slug k) s).
Qed.

(** ** What a request can do to the collection *)

Section Effects.
Context {caps : Capabilities}.

(** The second stage of an update either leaves the collection alone and
    does not answer 200, or answers 200 and has applied [update_of]. *)
Lemma PUT_apply_cases (notes : list Note.t) (slug : string) (note : Note.t)
    (title content : string) (body : PutBody.t) (env : PutEnv) :
  findOne notes slug = Some note ->
  (fst (PUT_apply notes slug note title content body env) = notes
   /\ status (snd (PUT_apply notes slug note title content body env)) <> 200)
  \/ (fst (PUT_apply notes slug note title content body env)
      = fst (updateOne notes slug (update_of note title content body env))
      /\ status (snd (PUT_apply notes slug note title content body env)) = 200).
Proof.
  intros Hfind. unfold PUT_apply, update_of.
  destruct (resolveExpiresAt _ _) as [|e|] eqn:He; [| |by left].
  all: set (f := updateDoc _ _ _ _ _ _).
  all: pose proof (updateOne_counts notes slug f note Hfind) as Hcounts.
  all: pose proof (updateOne_same notes slug f note Hfind) as Hsame.
  all: destruct (updateOne notes slug f) as [notes' [matched modified]].
  all: simpl in Hcounts, Hsame; injection Hcounts as -> ->; simpl.
  all: destruct (decide (f note = note)) as [Hid|Hdiff]; simpl; [|by right].
  all: destruct (String.eqb (Note.content note) content); simpl; [|by right].
  all: destruct (truthy_opt (PutBody.newPassword body)); simpl; [by right|].
  all: destruct (sameExpiresAt note (PutBody.expiresAt body)) as [[|]|];
         simpl; [by right | by right | left].
  all: split; [by apply Hsame | done].
Qed.

Lemma PUT_body_cases (notes : list Note.t) (slug : string) (body : PutBody.t)
    (env : PutEnv) :
  (fst (PUT_body notes slug body env) = notes
   /\ status (snd (PUT_body notes slug body env)) <> 200)
  \/ exists (note : Note.t) (title content : string),
       findOne notes slug = Some note
       /\ PutBody.title body = Some title
       /\ PutBody.content body = Some content
       /\ fst (PUT_body notes slug body env)
          = fst (updateOne notes slug (update_of note title content body env))
       /\ status (snd (PUT_body notes slug body env)) = 200.
Proof.
  unfold PUT_body.
  destruct (PutBody.title body) as [title|]; [|by left].
  destruct (PutBody.content body) as [content|]; [|by left].
  destruct (negb (truthy title) || negb (truthy content)); [by left|].
  destruct (isProfane _); [by left|].
  destruct (findOne notes slug) as [note|] eqn:Hfind; [|by left].
  destruct (expired note _); [by left|].
  assert (Hgo : (fst (PUT_apply notes slug note title content body env) = notes
    /\ status (snd (PUT_apply notes slug note title content body env)) <> 200)
    \/ exists (note0 : Note.t) (title0 content0 : string),
         Some note = Some note0 /\ Some title = Some title0
         /\ Some content = Some content0
         /\ fst (PUT_apply notes slug note title content body env)
            = fst (updateOne notes slug
                     (update_of note0 title0 content0 body env))
         /\ status (snd (PUT_apply notes slug note title content body env))
            = 200).
  { destruct (PUT_apply_cases notes slug note title content body env Hfind)
      as [Hleft | [Hup H200]]; [by left|].
    right. by exists note, title, content. }
  destruct (isProtected note); [|exact Hgo].
  destruct (PutBody.currentPassword body) as [c|]; [|by left].
  destruct (negb (truthy c)); [by left|].
  destruct (negb (bcrypt_compare c _)); [by left | exact Hgo].
Qed.

(** A create either leaves the collection alone and does not answer 201,
    or answers 201 and has added one note under a slug that was free. *)
Lemma POST_body_cases (notes : list Note.t) (body0 : PostBody.t) (env : PostEnv)
    (notes' : list Note.t) (r : Response) :
  POST_body notes body0 env = Some (notes', r) ->
  (notes' = notes /\ status r <> 201)
  \/ exists (note : Note.t) (title content : string),
       notes' = insertOne notes note
       /\ status r = 201
       /\ findOne notes (Note.slug note) = None
       /\ PostBody.title body0 = Some title
       /\ PostBody.content body0 = Some content
       /\ truthy title = true /\ truthy content = true
       /\ Note.title note = title
       /\ Note.content note = content
       /\ Note.history note = [NoteContent.mk content (noteCreationTime env)]
       /\ Note.passwordHash note
          = match PostBody.password body0 with
            | Some p =>
                if truthy p then Some (bcrypt_hash p (post_salt env)) else None
            | None => None
            end
       /\ get_field "slug" (body r) = Some (JStr (Note.slug note))
       /\ Note.createdAt note = noteCreationTime env
       /\ Note.updatedAt note = noteCreationTime env
       /\ Note.expiresAt note
          = match PostBody.expiresAt body0 with
            | Some s => if truthy s then Some (parseDate s) else None
            | None => None
            end.
Proof.
  unfold POST_body. intros Hbody.
  destruct (PostBody.title body0) as [title|];
    [|injection Hbody as <- <-; by left].
  destruct (PostBody.content body0) as [content|];
    [|injection Hbody as <- <-; by left].
  destruct (truthy title) eqn:Htt; [|injection Hbody as <- <-; by left].
  destruct (truthy content) eqn:Hct; [|injection Hbody as <- <-; by left].
  simpl in Hbody.
  destruct (isProfane _); [injection Hbody as <- <-; by left|].
  destruct (generateUniqueSlug _ _ _ _) as [finalSlug|] eqn:Hslug; [|done].
  pose proof (generateUniqueSlug_free _ _ _ _ _ Hslug) as Hfree.
  assert (Hnew : forall e : option JsDate, exists (note : Note.t) (t c : string),
    insertOne notes
      (Note.mk finalSlug title content
         match PostBody.password body0 with
         | Some p =>
             if truthy p then Some (bcrypt_hash p (post_salt env)) else None
         | None => None
         end (noteCreationTime env) (noteCreationTime env) e
         [NoteContent.mk content (noteCreationTime env)])
    = insertOne notes note
    /\ 201 = 201
    /\ findOne notes (Note.slug note) = None
    /\ Some title = Some t /\ Some content = Some c
    /\ truthy t = true /\ truthy c = true
    /\ Note.title note = t /\ Note.content note = c
    /\ Note.history note = [NoteContent.mk c (noteCreationTime env)]
    /\ Note.passwordHash note
       = match PostBody.password body0 with
         | Some p =>
             if truthy p then Some (bcrypt_hash p (post_salt env)) else None
         | None => None
         end
    /\ Some (JStr finalSlug) = Some (JStr (Note.slug note))
    /\ Note.createdAt note = noteCreationTime env
    /\ Note.updatedAt note = noteCreationTime env
    /\ Note.expiresAt note = e).
  { intros e. eexists _, title, content. split; [reflexivity|].
    split; [reflexivity|]. split; [exact Hfree|].
    repeat split; (reflexivity || assumption). }
  destruct (PostBody.expiresAt body0) as [s|].
  - destruct (truthy s).
    + destruct (date_gt _ _); injection Hbody as <- <-; [|by left].
      right. apply Hnew.
    + injection Hbody as <- <-. right. apply Hnew.
  - injection Hbody as <- <-. right. apply Hnew.
Qed.

End Effects.

Section Invariants.
Context {caps : Capabilities}.

(** A request leaves the collection as it was, or it is an update answered
    with 200 that rewrote the first document of its slug, or a create
    answered with 201 that added a document under a slug that was free. *)
Lemma step_effect (srv : Server) (op : Op) (srv' : Server) (r : Response) :
  step srv op = Some (srv', r) ->
  notes srv' = notes srv
  \/ (exists (req : Request) (slug : string) (body : PutBody.t) (env : PutEnv)
             (note : Note.t) (title content : string),
        op = OpPUT req slug body env
        /\ status r = 200
        /\ findOne (notes srv) slug = Some note
        /\ PutBody.title body = Some title
        /\ PutBody.content body = Some content
        /\ notes srv'
           = fst (updateOne (notes srv) slug
                    (update_of note title content body env)))
  \/ (exists (req : Request) (body0 : PostBody.t) (env : PostEnv) (note : Note.t),
        op = OpPOST req body0 env
        /\ status r = 201
        /\ findOne (notes srv) (Note.slug note) = None
        /\ Note.history note
           = [NoteContent.mk (Note.content note) (noteCreationTime env)]
        /\ notes srv' = insertOne (notes srv) note).
Proof.
  destruct op as [req slug env | req slug env | req slug body env | req body0 env];
    simpl; intros Hstep.
  - left. injection Hstep as Hstep. unfold GET in Hstep.
    destruct (applyRateLimit _ _ _ _) as [limits [x|]];
      by injection Hstep as <- <-.
  - left. injection Hstep as Hstep. unfold history_GET in Hstep.
    destruct (applyRateLimit _ _ _ _) as [limits [x|]];
      by injection Hstep as <- <-.
  - injection Hstep as Hstep. unfold PUT in Hstep.
    destruct (applyRateLimit _ _ _ _) as [limits [x|]];
      [injection Hstep as <- <-; by left|].
    pose proof (PUT_body_cases (notes srv) slug body env) as Hcases.
    destruct (PUT_body (notes srv) slug body env) as [notes' x].
    injection Hstep as <- <-. simpl in *.
    destruct Hcases
      as [[-> _] | (note & title & content & Hf & Ht & Hc & -> & H200)];
      [by left|].
    right; left. by exists req, slug, body, env, note, title, content.
  - unfold POST in Hstep.
    destruct (applyRateLimit _ _ _ _) as [limits [x|]];
      [injection Hstep as <- <-; by left|].
    destruct (POST_body (notes srv) body0 env) as [[notes' x]|] eqn:Hbody;
      [|done].
    injection Hstep as <- <-. simpl.
    destruct (POST_body_cases _ _ _ _ _ Hbody)
      as [[-> _] | (note & title & content & -> & H201 & Hfree & _ & _ & _ & _
                    & _ & Hcont & Hhist & _)]; [by left|].
    right; right. exists req, body0, env, note.
    repeat (split; [done|]). split; [by rewrite Hhist, Hcont | done].
Qed.

(** Slug uniqueness.  Handled one after the other, requests keep the slugs
    of the collection pairwise different: a create only adds a slug that no
    stored note has, and an update never changes a slug. *)
Theorem slugs_unique_run (srv : Server) (ops : list Op) (srv' : Server) :
  slugs_unique (notes srv) ->
  run srv ops = Some srv' ->
  slugs_unique (notes srv').
Proof.
  revert srv. induction ops as [|op later IH]; intros srv Huniq; simpl.
  - by intros [= <-].
  - destruct (step srv op) as [[srv1 r]|] eqn:Hstep; [|done].
    apply IH. unfold slugs_unique in *.
    destruct (step_effect srv op srv1 r Hstep)
      as [-> | [(req & slug & body & env & note & title & content & _ & _ & _
                 & _ & _ & ->)
               | (req & body0 & env & note & _ & _ & Hfree & _ & ->)]].
    + done.
    + by rewrite updateOne_slugs.
    + unfold insertOne. rewrite map_app. simpl.
      apply NoDup_app. split; [done|]. split; [|apply NoDup_singleton].
      intros s Hs Hin. apply list_elem_of_singleton in Hin as ->.
      by apply findOne_None_slugs in Hfree.
Qed.

(** The history follows the content.  If the content of every stored note
    is the content of the last entry of its history, it is so after any
    sequence of requests: a create starts the history with the content, an
    update that changes the content appends it, and an update that keeps
    the content keeps the history. *)
Theorem tracks_content_run (srv : Server) (ops : list Op) (srv' : Server) :
  Forall tracks_content (notes srv) ->
  run srv ops = Some srv' ->
  Forall tracks_content (notes srv').
Proof.
  revert srv. induction ops as [|op later IH]; intros srv Hinv; simpl.
  - by intros [= <-].
  - destruct (step srv op) as [[srv1 r]|] eqn:Hstep; [|done].
    apply IH.
    destruct (step_effect srv op srv1 r Hstep)
      as [-> | [(req & slug & body & env & note & title & content & _ & _
                 & Hfind & _ & _ & ->)
               | (req & body0 & env & note & _ & _ & _ & Hhist & ->)]].
    + done.
    + destruct (updateOne_split (notes srv) slug
                  (update_of note title content body env) note Hfind)
        as (front & back & Hsplit & ->).
      rewrite Hsplit in Hinv.
      apply Forall_app in Hinv as [Hfront Hback].
      apply Forall_cons in Hback as [Hnote Hback].
      apply Forall_app. split; [done|]. apply Forall_cons. split; [|done].
      unfold tracks_content, update_of, updateDoc, historyPush. simpl.
      destruct (String.eqb_spec (Note.content note) content) as [<-|Hne]; simpl.
      * exact Hnote.
      * eexists. split; [apply last_snoc | reflexivity].
    + unfold insertOne. apply Forall_app. split; [done|].
      apply Forall_singleton. unfold tracks_content. rewrite Hhist.
      by eexists.
Qed.

Lemma grown_from_refl (notes : list Note.t) : grown_from notes notes.
Proof. intros s n Hn. by exists n. Qed.

Lemma grown_from_trans (a b c : list Note.t) :
  grown_from a b -> grown_from b c -> grown_from a c.
Proof.
  intros Hab Hbc s n Hn.
  destruct (Hab s n Hn) as (n1 & Hn1 & Hc1 & Hp1).
  destruct (Hbc s n1 Hn1) as (n2 & Hn2 & Hc2 & Hp2).
  exists n2. split; [done|]. split; [congruence|]. by etrans.
Qed.

(** Nothing is lost.  After any sequence of requests every slug that had a
    note still has one, created at the same time, and the history it had
    is the beginning of the history it has: no request deletes a note,
    moves it to another slug, or rewrites or removes a history entry. *)
Theorem grown_from_run (srv : Server) (ops : list Op) (srv' : Server) :
  run srv ops = Some srv' ->
  grown_from (notes srv) (notes srv').
Proof.
  revert srv. induction ops as [|op later IH]; intros srv; simpl.
  - intros [= <-]. apply grown_from_refl.
  - destruct (step srv op) as [[srv1 r]|] eqn:Hstep; [|done].
    intros Hrun. apply (grown_from_trans _ (notes srv1)); [|by apply IH].
    destruct (step_effect srv op srv1 r Hstep)
      as [-> | [(req & slug & body & env & note & title & content & _ & _
                 & Hfind & _ & _ & ->)
               | (req & body0 & env & note & _ & _ & _ & _ & ->)]].
    + apply grown_from_refl.
    + intros s n Hn. destruct (decide (s = slug)) as [->|Hne].
      * rewrite findOne_updateOne by apply updateDoc_slug.
        rewrite Hfind. simpl. eexists. split; [reflexivity|].
        assert (n = note) as -> by congruence.
        split; [reflexivity|].
        unfold update_of, updateDoc, historyPush. simpl.
        destruct (negb _); [by apply prefix_app_r | done].
      * rewrite findOne_updateOne_other by (apply updateDoc_slug || done).
        by exists n.
    + intros s n Hn. exists n. split; [by apply findOne_insertOne_old | done].
Qed.

(** Only success writes.  A request changes the collection only if it is
    an update answered with 200 or a create answered with 201; reads,
    rejected requests and failed requests leave every document as it
    was. *)
Theorem only_success_writes (srv : Server) (op : Op) (srv' : Server)
    (r : Response) :
  step srv op = Some (srv', r) ->
  notes srv' <> notes srv ->
  (exists req slug body env, op = OpPUT req slug body env /\ status r = 200)
  \/ (exists req body env, op = OpPOST req body env /\ status r = 201).
Proof.
  intros Hstep Hchanged.
  destruct (step_effect srv op srv' r Hstep)
    as [Hsame | [(req & slug & body & env & note & title & content & -> & H200
                  & _)
                | (req & body0 & env & note & -> & H201 & _)]].
  - done.
  - left. by exists req, slug, body, env.
  - right. by exists req, body0, env.
Qed.

End Invariants.

(** The invariants at the sample session. *)
Lemma slugs_unique_run_witness :
  exists srv' : Server,
    run (caps := Sample.caps) empty_server Session.ops = Some srv'
    /\ slugs_unique (notes srv').
Proof.
  destruct (run (caps := Sample.caps) empty_server Session.ops)
    as [srv'|] eqn:Hrun; [|vm_compute in Hrun; discriminate].
  exists srv'. split; [reflexivity|].
  apply (slugs_unique_run (caps := Sample.caps) empty_server Session.ops srv');
    [apply NoDup_nil_2 | exact Hrun].
Defined.

Lemma tracks_content_run_witness :
  exists srv' : Server,
    run (caps := Sample.caps) empty_server Session.ops = Some srv'
    /\ Forall tracks_content (notes srv').
Proof.
  destruct (run (caps := Sample.caps) empty_server Session.ops)
    as [srv'|] eqn:Hrun; [|vm_compute in Hrun; discriminate].
  exists srv'. split; [reflexivity|].
  apply (tracks_content_run (caps := Sample.caps) empty_server Session.ops srv');
    [apply Forall_nil_2 | exact Hrun].
Defined.

Lemma grown_from_run_witness :
  exists srv' : Server,
    run (caps := Sample.caps) Sample.server
      [Session.edit "open" "B" "pw"; Session.create "T" "x" None]
    = Some srv'
    /\ grown_from (notes Sample.server) (notes srv').
Proof.
  destruct (run (caps := Sample.caps) Sample.server
              [Session.edit "open" "B" "pw"; Session.create "T" "x" None])
    as [srv'|] eqn:Hrun; [|vm_compute in Hrun; discriminate].
  exists srv'. split; [reflexivity|].
  exact (grown_from_run (caps := Sample.caps) Sample.server _ srv' Hrun).
Defined.

Lemma only_success_writes_witness :
  status (snd (PUT (caps := Sample.caps) Sample.server Sample.anyone "open"
                 (Sample.put_body "Plan" "B" (Some "pw") Omitted)
                 Sample.put_env))
  = 200.
Proof.
  assert (Hne : notes (fst (PUT (caps := Sample.caps) Sample.server
                              Sample.anyone "open"
                              (Sample.put_body "Plan" "B" (Some "pw") Omitted)
                              Sample.put_env))
                <> notes Sample.server) by (vm_compute; discriminate).
  destruct (only_success_writes (caps := Sample.caps) Sample.server
              (Session.edit "open" "B" "pw") _ _ eq_refl Hne)
    as [(req & slug & body & env & Hop & H200) | (req & body & env & Hop & _)].
  - exact H200.
  - discriminate Hop.
Defined.

(** ** The shape of a slug *)

Lemma slug_char_plain (c : ascii) :
  is_slug_char c = true -> is_space c = false /\ toLowerCase_char c = c.
Proof.
  destruct c as [[] [] [] [] [] [] [] []]; vm_compute; intros; by split.
Qed.

Lemma strip_non_slug_shape (s : string) :
  string_forall is_slug_char (strip_non_slug s) = true.
Proof.
  induction s as [|c r IH]; simpl; [done|].
  destruct (is_slug_char c) eqn:Hc; simpl; [by rewrite Hc | done].
Qed.

Lemma substring_0_forall (p : ascii -> bool) (n : nat) (s : string) :
  string_forall p s = true -> string_forall p (substring 0 n s) = true.
Proof.
  revert n. induction s as [|c r IH]; intros [|n]; simpl; try done.
  intros [-> Hr]%andb_true_iff. by apply IH.
Qed.

Lemma substring_0_length (n : nat) (s : string) :
  (String.length (substring 0 n s) <= n)%nat.
Proof.
  revert n. induction s as [|c r IH]; intros [|n]; simpl; try lia.
  specialize (IH n). lia.
Qed.

Lemma truncate50_shape (s : string) :
  string_forall is_slug_char s = true ->
  string_forall is_slug_char (truncate50 s) = true
  /\ (String.length (truncate50 s) <= 50)%nat.
Proof.
  intros Hs. unfold truncate50.
  destruct (Nat.ltb_spec 50 (String.length s)).
  - split; [by apply substring_0_forall | apply substring_0_length].
  - split; [done | lia].
Qed.

(** A string of slug characters goes through the normalization steps
    unchanged, but for the truncation. *)
Lemma slug_chars_fixed (s : string) :
  string_forall is_slug_char s = true ->
  trim s = s /\ toLowerCase s = s /\ replace_spaces false s = s
  /\ strip_non_slug s = s.
Proof.
  intros Hs.
  assert (Hstart : trimStart s = s).
  { destruct s as [|c r]; [done|]. simpl in *.
    apply andb_true_iff in Hs as [Hc _].
    by destruct (slug_char_plain c Hc) as [-> _]. }
  assert (Hend : trimEnd s = s).
  { induction s as [|c r IH]; [done|]. simpl in *.
    apply andb_true_iff in Hs as [Hc Hr].
    destruct (slug_char_plain c Hc) as [-> _]. simpl.
    rewrite IH; [done | done |].
    destruct r as [|c' r']; [done|]. simpl in *.
    apply andb_true_iff in Hr as [Hc' _].
    by destruct (slug_char_plain c' Hc') as [-> _]. }
  unfold trim. rewrite Hstart, Hend. split; [done|].
  clear Hstart Hend. induction s as [|c r IH]; [done|]. simpl in *.
  apply andb_true_iff in Hs as [Hc Hr].
  destruct (slug_char_plain c Hc) as [-> ->]. rewrite Hc.
  destruct (IH Hr) as (-> & -> & ->). done.
Qed.

Lemma baseSlug_of_slug_chars (s : string) :
  string_forall is_slug_char s = true -> baseSlug (Some s) = truncate50 s.
Proof.
  intros Hs. destruct (slug_chars_fixed s Hs) as (Htrim & Hlow & Hrep & Hstrip).
  unfold baseSlug. rewrite Htrim, Hlow, Hrep.
  destruct s as [|c r]; [reflexivity|]. simpl truthy. cbv iota.
  by rewrite Hstrip.
Qed.

Lemma truncate50_short (s : string) :
  (String.length s <= 50)%nat -> truncate50 s = s.
Proof.
  intros Hlen. unfold truncate50.
  destruct (Nat.ltb_spec 50 (String.length s)); [lia | done].
Qed.

(** Slug shape.  The base slug of any proposal consists of the characters
    a-z, 0-9 and the hyphen only and has at most 50 of them, and it is a
    fixed point of the normalization: proposing a base slug gives it
    back. *)
Theorem baseSlug_shape (p : option string) :
  string_forall is_slug_char (baseSlug p) = true
  /\ (String.length (baseSlug p) <= 50)%nat
  /\ baseSlug (Some (baseSlug p)) = baseSlug p.
Proof.
  assert (Hshape : string_forall is_slug_char (baseSlug p) = true
                   /\ (String.length (baseSlug p) <= 50)%nat).
  { destruct p as [x|]; [|split; [done | simpl; lia]].
    rewrite baseSlug_normalize. unfold normalize_trimmed, normalize_as_specified.
    apply truncate50_shape, strip_non_slug_shape. }
  destruct Hshape as [Hchars Hlen]. split; [done|]. split; [done|].
  rewrite baseSlug_of_slug_chars by done. by apply truncate50_short.
Qed.

Section CustomSlug.
Context {caps : Capabilities}.

(** The custom slug of the form.  What the create form keeps of a typed
    slug is made of slug characters, so the server only truncates it; if it
    is not empty, has at most 50 characters and no stored note has it, the
    allocator returns it unchanged, without drawing a random identifier. *)
Theorem sanitized_slug_is_kept (fuel : nat) (notes : list Note.t)
    (input : string) (k : nat) :
  baseSlug (Some (sanitizeSlug input)) = truncate50 (sanitizeSlug input)
  /\ sanitizeSlug (sanitizeSlug input) = sanitizeSlug input
  /\ (truthy (sanitizeSlug input) = true ->
      (String.length (sanitizeSlug input) <= 50)%nat ->
      findOne notes (sanitizeSlug input) = None ->
      generateUniqueSlug fuel notes (Some (sanitizeSlug input)) k
      = Some (sanitizeSlug input)).
Proof.
  assert (Hchars : string_forall is_slug_char (sanitizeSlug input) = true)
    by apply strip_non_slug_shape.
  split; [by apply baseSlug_of_slug_chars|]. split.
  - destruct (slug_chars_fixed _ Hchars) as (_ & Hlow & Hrep & Hstrip).
    unfold sanitizeSlug at 1. by rewrite Hlow, Hrep, Hstrip.
  - intros Htruthy Hlen Hfree.
    apply generateUniqueSlug_Some. exists 0%nat.
    rewrite baseSlug_of_slug_chars, truncate50_short by done.
    split; [unfold MAX_ATTEMPTS; lia|]. split.
    + unfold candidate. by rewrite Htruthy.
    + split; [done | lia].
Qed.

End CustomSlug.

Lemma sanitized_slug_is_kept_witness :
  generateUniqueSlug (caps := Sample.caps) 0 (notes Sample.server)
    (Some (sanitizeSlug "My Meeting  Notes!")) 0
  = Some "my-meeting-notes".
Proof.
  exact (proj2 (proj2 (sanitized_slug_is_kept (caps := Sample.caps) 0
                         (notes Sample.server) "My Meeting  Notes!" 0))
           eq_refl ltac:(vm_compute; lia) eq_refl).
Defined.

(** ** More on the rate limiter *)

Lemma ceil_div_1000_bounds (x : Z) :
  0 <= x <= WINDOW_SIZE_MS -> 0 <= ceil_div_1000 x <= 60.
Proof.
  unfold WINDOW_SIZE_MS, ceil_div_1000. intros Hx.
  assert (-60 <= - x / 1000) by (apply Z.div_le_lower_bound; lia).
  assert (- x / 1000 <= 0) by (apply Z.div_le_upper_bound; lia).
  lia.
Qed.

(** Retry-After stays within the window.  If the clock has not gone back
    behind the client's last reset, a rejection announces between 0 and 60
    seconds. *)
Theorem retry_after_bounds (maxRequests : Z) (store : gmap string ClientData)
    (req : Request) (now : Z) (r : Response) :
  (forall d : ClientData, store !! clientKey req = Some d -> lastReset d <= now) ->
  snd (applyRateLimit maxRequests store req now) = Some r ->
  exists timeLeft : Z,
    r = tooManyRequests timeLeft /\ 0 <= timeLeft <= 60.
Proof.
  intros Hclock. rewrite applyRateLimit_answer. cbv zeta.
  destruct (_ <? _); [|done]. intros [= <-]. eexists. split; [reflexivity|].
  apply ceil_div_1000_bounds.
  destruct (store !! clientKey req) as [d|] eqn:Hd; simpl.
  - specialize (Hclock d eq_refl).
    destruct (Z.ltb_spec WINDOW_SIZE_MS (now - lastReset d));
      simpl; unfold WINDOW_SIZE_MS in *; lia.
  - destruct (WINDOW_SIZE_MS <? now - now); simpl;
      unfold WINDOW_SIZE_MS; lia.
Qed.

Lemma retry_after_bounds_witness :
  exists timeLeft : Z,
    snd (applyRateLimit MAX_REQUESTS_CREATE
           {[ "10.0.0.1" := mkClientData 5 Sample.today ]} Sample.anyone
           (Sample.today + 1500))
    = Some (tooManyRequests timeLeft)
    /\ 0 <= timeLeft <= 60.
Proof.
  destruct (retry_after_bounds MAX_REQUESTS_CREATE
              {[ "10.0.0.1" := mkClientData 5 Sample.today ]} Sample.anyone
              (Sample.today + 1500)
              (tooManyRequests 59)) as (t & Ht & Hb).
  - intros d Hd. vm_compute in Hd. injection Hd as <-. vm_compute. discriminate.
  - vm_compute. reflexivity.
  - exists 59. split; [vm_compute; reflexivity | lia].
Defined.

(** The quota of a window.  Of the requests that a client unknown to the
    store makes within one window of its first request, the first
    [maxRequests] pass and every later one is rejected. *)
Theorem fresh_client_quota (maxRequests : Z) (store : gmap string ClientData)
    (req : Request) (first : Z) (later : list Z) (i : nat)
    (r : option Response) :
  store !! clientKey req = None ->
  Forall (fun t => t - first <= WINDOW_SIZE_MS) later ->
  snd (applyRateLimit_run maxRequests store req (first :: later)) !! i = Some r ->
  (rejected r = true <-> maxRequests <= Z.of_nat i).
Proof.
  intros Hnew Hwin. cbn [applyRateLimit_run].
  pose proof (applyRateLimit_store maxRequests store req first) as Hst.
  pose proof (rejected_answer maxRequests store req first) as Hans.
  destruct (applyRateLimit maxRequests store req first) as [store' r0].
  cbn [fst snd] in Hst, Hans.
  rewrite bump_taken_up, Hnew in Hst, Hans. cbn in Hst, Hans.
  assert (Hd : store' !! clientKey req = Some (mkClientData 1 first)).
  { rewrite Hst. apply lookup_insert_eq. }
  destruct (applyRateLimit_run_window maxRequests req later store'
              (mkClientData 1 first) Hd Hwin) as [_ Hrun].
  destruct (applyRateLimit_run maxRequests store' req later) as [store'' rs].
  cbn [snd] in *. destruct i as [|i]; simpl.
  - intros [= <-]. rewrite Hans. lia.
  - intros Hi. rewrite (Hrun i r Hi). cbn [count]. lia.
Qed.

Lemma fresh_client_quota_witness :
  rejected (Some (tooManyRequests 55)) = true <-> MAX_REQUESTS_CREATE <= 5.
Proof.
  apply (fresh_client_quota MAX_REQUESTS_CREATE ∅ Sample.anyone 0
           [1000; 2000; 3000; 4000; 5500] 5 (Some (tooManyRequests 55))).
  - reflexivity.
  - repeat constructor; vm_compute; discriminate.
  - vm_compute. reflexivity.
Defined.

(** Clients do not share a quota.  The requests of one client change
    neither the answer to another client nor the other client's record,
    and two requests of different clients leave the same store behind in
    either order. *)
Theorem clients_are_independent (maxRequests : Z)
    (store : gmap string ClientData) (req1 req2 : Request) (t1 t2 : Z) :
  clientKey req1 <> clientKey req2 ->
  let after1 := fst (applyRateLimit maxRequests store req1 t1) in
  let after2 := fst (applyRateLimit maxRequests store req2 t2) in
  snd (applyRateLimit maxRequests after1 req2 t2)
  = snd (applyRateLimit maxRequests store req2 t2)
  /\ after1 !! clientKey req2 = store !! clientKey req2
  /\ fst (applyRateLimit maxRequests after1 req2 t2)
     = fst (applyRateLimit maxRequests after2 req1 t1).
Proof.
  intros Hne after1 after2. subst after1 after2.
  rewrite !applyRateLimit_answer, !applyRateLimit_store.
  rewrite !lookup_insert_ne by done.
  split; [done|]. split; [done|]. by apply insert_insert_ne.
Qed.

Lemma clients_are_independent_witness :
  snd (applyRateLimit MAX_REQUESTS_CREATE
         (fst (applyRateLimit MAX_REQUESTS_CREATE
                 {[ "10.0.0.2" := mkClientData 5 0 ]}
                 (mkRequest (Some "10.0.0.1") None None) 10))
         (mkRequest (Some "10.0.0.2") None None) 20)
  = snd (applyRateLimit MAX_REQUESTS_CREATE {[ "10.0.0.2" := mkClientData 5 0 ]}
           (mkRequest (Some "10.0.0.2") None None) 20).
Proof.
  refine (proj1 (clients_are_independent MAX_REQUESTS_CREATE
                   {[ "10.0.0.2" := mkClientData 5 0 ]}
                   (mkRequest (Some "10.0.0.1") None None)
                   (mkRequest (Some "10.0.0.2") None None) 10 20 _)).
  vm_compute. discriminate.
Defined.

(** ** The credential of a read *)

(** The token of a Bearer header.  Of a header ["Bearer " + password], as
    the pages send it, the handlers take the part of the password before
    its first space as the credential: the password itself if it has no
    space, and nothing if it starts with one. *)
Theorem bearerToken_of_password (i f : option string) (password : string) :
  bearerToken (mkRequest i f (Some ("Bearer " +:+ password)))
  = Some (before_space password).
Proof.
  assert (Hsplit : split_space "" ("Bearer " +:+ password)
                   = "Bearer" :: split_space "" password) by reflexivity.
  unfold bearerToken. cbn [authorization]. rewrite Hsplit.
  destruct (split_space_head "" password) as [rest ->]. reflexivity.
Qed.

(** ** Round trips through the collection *)

Section RoundTrips.
Context {caps : Capabilities}.

(** Create, then read.  A note created without expiration (201) is read
    back under the slug of the answer with the title and the content that
    were sent, provided the read passes the limiter and, if a password was
    set, carries it as its token and [bcrypt.compare] accepts the password
    against its own digest. *)
Theorem create_then_read (srv : Server) (req : Request) (body0 : PostBody.t)
    (env : PostEnv) (srv1 : Server) (r1 : Response) (req' : Request)
    (genv : GetEnv) (title content : string) :
  POST srv req body0 env = Some (srv1, r1) ->
  status r1 = 201 ->
  PostBody.title body0 = Some title ->
  PostBody.content body0 = Some content ->
  PostBody.expiresAt body0 = None ->
  snd (applyRateLimit MAX_REQUESTS_NOTE (noteLimits srv1) req'
         (get_limit_now genv)) = None ->
  (forall p : string,
     PostBody.password body0 = Some p -> truthy p = true ->
     bearerToken req' = Some p
     /\ bcrypt_compare p (bcrypt_hash p (post_salt env)) = true) ->
  exists (slug : string) (view : JsVal),
    get_field "slug" (body r1) = Some (JStr slug)
    /\ snd (GET srv1 req' slug genv) = mkResponse 200 (JObj [("note", view)]) []
    /\ get_field "title" view = Some (JStr title)
    /\ get_field "content" view = Some (JStr content).
Proof.
  intros Hpost H201 Ht Hc Hexp Hrl Hcred.
  destruct (snd (applyRateLimit MAX_REQUESTS_CREATE (createLimits srv) req
                   (post_limit_now env))) as [x|] eqn:Hlim.
  { pose proof (POST_guarded srv req body0 env) as Hg. rewrite Hpost in Hg.
    destruct Hg as [_ Hr]. rewrite (Hr x Hlim) in H201.
    apply limiter_answer_status in Hlim. congruence. }
  rewrite (POST_passed srv req body0 env Hlim) in Hpost.
  apply fmap_Some in Hpost as ([notes' r] & Hbody & [= -> ->]). simpl in *.
  destruct (POST_body_cases _ _ _ _ _ Hbody)
    as [[_ Hne] | (note & t & c & -> & _ & Hfree & Ht' & Hc' & _ & Hct & Htitle
                   & Hcontent & _ & Hhash & Hslug & _ & _ & Hexpires)];
    [done|].
  rewrite Ht in Ht'. rewrite Hc in Hc'. injection Ht' as <-. injection Hc' as <-.
  rewrite Hexp in Hexpires.
  exists (Note.slug note),
    (JObj [("title", JStr title); ("content", JStr content);
           ("isProtected", JBool (isProtected note));
           ("createdAt", JStr (toISOString (Note.createdAt note)));
           ("updatedAt", JStr (toISOString (Note.updatedAt note)));
           ("expiresAt", JUndefined)]).
  split; [exact Hslug|]. split; [|split; reflexivity].
  destruct (GET_passed (mkServer (insertOne (notes srv) note)
                          (fst (applyRateLimit MAX_REQUESTS_CREATE
                                  (createLimits srv) req (post_limit_now env)))
                          (noteLimits srv) (historyLimits srv))
              req' (Note.slug note) genv Hrl) as [-> _].
  unfold GET_body. cbn [notes].
  rewrite (findOne_insertOne _ _ Hfree).
  unfold expired. rewrite Hexpires.
  assert (Hview : GET_respond note
    = mkResponse 200
        (JObj [("note",
                JObj [("title", JStr title); ("content", JStr content);
                      ("isProtected", JBool (isProtected note));
                      ("createdAt", JStr (toISOString (Note.createdAt note)));
                      ("updatedAt", JStr (toISOString (Note.updatedAt note)));
                      ("expiresAt", JUndefined)])]) []).
  { unfold GET_respond, noteResponse. by rewrite Hexpires, Htitle, Hcontent. }
  rewrite Hview.
  destruct (isProtected note) eqn:Hprot; [|reflexivity].
  unfold isProtected in Hprot. rewrite Hhash in *.
  destruct (PostBody.password body0) as [p|]; [|done].
  destruct (truthy p) eqn:Hp; [|done].
  destruct (Hcred p eq_refl Hp) as [-> Hcmp]. rewrite Hp. simpl.
  by rewrite Hcmp.
Qed.

(** An update writes what was sent.  After an update answered with 200 the
    note of the slug has the title and the content of the request and the
    update time as [updatedAt]; its slug and creation time are as before,
    its digest is the digest of the new password if one was sent and the
    old digest otherwise, and the note of every other slug is untouched. *)
Theorem update_writes_what_was_sent (srv : Server) (req : Request)
    (slug : string) (body : PutBody.t) (env : PutEnv) :
  status (snd (PUT srv req slug body env)) = 200 ->
  exists (note note' : Note.t) (title content : string),
    findOne (notes srv) slug = Some note
    /\ findOne (notes (fst (PUT srv req slug body env))) slug = Some note'
    /\ PutBody.title body = Some title /\ Note.title note' = title
    /\ PutBody.content body = Some content /\ Note.content note' = content
    /\ Note.updatedAt note' = put_updatedAt env
    /\ Note.slug note' = Note.slug note
    /\ Note.createdAt note' = Note.createdAt note
    /\ Note.passwordHash note'
       = (if truthy_opt (PutBody.newPassword body)
          then Some (bcrypt_hash (default "" (PutBody.newPassword body))
                       (put_salt env))
          else Note.passwordHash note)
    /\ forall s : string,
         s <> slug ->
         findOne (notes (fst (PUT srv req slug body env))) s
         = findOne (notes srv) s.
Proof.
  intros H200.
  destruct (snd (applyRateLimit MAX_REQUESTS_NOTE (noteLimits srv) req
                   (put_limit_now env))) as [x|] eqn:Hrl.
  { destruct (PUT_guarded srv req slug body env) as [_ Hr].
    rewrite (Hr x Hrl) in H200.
    apply limiter_answer_status in Hrl. congruence. }
  destruct (PUT_passed srv req slug body env Hrl) as [Hans Hnotes].
  rewrite Hans in H200. rewrite Hnotes.
  destruct (PUT_body_cases (notes srv) slug body env)
    as [[_ Hne] | (note & title & content & Hfind & Ht & Hc & -> & _)]; [done|].
  exists note, (update_of note title content body env note), title, content.
  split; [done|]. split.
  { rewrite findOne_updateOne by apply updateDoc_slug. by rewrite Hfind. }
  repeat (split; [done|]). split.
  - unfold update_of, updateDoc, newPasswordHash. simpl.
    destruct (PutBody.newPassword body) as [p|]; [|done]. simpl.
    by destruct (truthy p).
  - intros s Hs. by apply findOne_updateOne_other; [apply updateDoc_slug|].
Qed.

(** Protection is never removed.  If [bcrypt.hash] never yields the empty
    string, a note that has a digest has one after any sequence of
    requests: no request can turn a protected note into a public one. *)
Theorem protection_is_kept (srv : Server) (ops : list Op) (srv' : Server)
    (s : string) (n : Note.t) :
  (forall (p : string) (salt : nat), truthy (bcrypt_hash p salt) = true) ->
  run srv ops = Some srv' ->
  findOne (notes srv) s = Some n ->
  isProtected n = true ->
  exists n' : Note.t, findOne (notes srv') s = Some n' /\ isProtected n' = true.
Proof.
  intros Hdigest. revert srv n. induction ops as [|op later IH];
    intros srv n; simpl.
  - intros [= <-] Hn Hp. by exists n.
  - destruct (step srv op) as [[srv1 r]|] eqn:Hstep; [|done].
    intros Hrun Hn Hp.
    assert (Hnext : exists n1, findOne (notes srv1) s = Some n1
                               /\ isProtected n1 = true).
    { destruct (step_effect srv op srv1 r Hstep)
        as [-> | [(req & slug & body & env & note & title & content & _ & _
                   & Hfind & _ & _ & ->)
                 | (req & body0 & env & note & _ & _ & _ & _ & ->)]].
      - by exists n.
      - destruct (decide (s = slug)) as [->|Hne].
        + rewrite findOne_updateOne by apply updateDoc_slug.
          rewrite Hfind. simpl. eexists. split; [reflexivity|].
          assert (n = note) as -> by congruence.
          unfold isProtected, update_of, updateDoc, newPasswordHash in *. simpl.
          destruct (PutBody.newPassword body) as [p|]; [|done].
          destruct (truthy p); [|done]. simpl. apply Hdigest.
        + rewrite findOne_updateOne_other by (apply updateDoc_slug || done).
          by exists n.
      - exists n. split; [by apply findOne_insertOne_old | done]. }
    destruct Hnext as (n1 & Hn1 & Hp1). by apply (IH srv1 n1).
Qed.


End RoundTrips.

Lemma create_then_read_witness :
  exists (srv1 : Server) (r1 : Response) (slug : string) (view : JsVal),
    POST (caps := Sample.caps) empty_server Sample.anyone
      (PostBody.mk (Some "Plan") (Some "A") (Some "pw") None None)
      Sample.post_env
    = Some (srv1, r1)
    /\ snd (GET (caps := Sample.caps) srv1 (Sample.bearer "pw") slug
              Sample.get_env)
       = mkResponse 200 (JObj [("note", view)]) []
    /\ get_field "title" view = Some (JStr "Plan").
Proof.
  destruct (POST (caps := Sample.caps) empty_server Sample.anyone
              (PostBody.mk (Some "Plan") (Some "A") (Some "pw") None None)
              Sample.post_env) as [[srv1 r1]|] eqn:Hpost;
    [|vm_compute in Hpost; discriminate].
  pose proof Hpost as Hval. vm_compute in Hval. injection Hval as Hs Hr.
  destruct (create_then_read (caps := Sample.caps) empty_server Sample.anyone
              (PostBody.mk (Some "Plan") (Some "A") (Some "pw") None None)
              Sample.post_env srv1 r1 (Sample.bearer "pw") Sample.get_env
              "Plan" "A" Hpost)
    as (slug & view & _ & Hget & Htitle & _).
  - rewrite <- Hr. reflexivity.
  - reflexivity.
  - reflexivity.
  - reflexivity.
  - rewrite <- Hs. vm_compute. reflexivity.
  - intros p [= <-] _. split; reflexivity.
  - exists srv1, r1, slug, view. by repeat split.
Defined.

Lemma update_writes_what_was_sent_witness :
  exists note' : Note.t,
    findOne (notes (fst (PUT (caps := Sample.caps) Sample.server Sample.anyone
                           "open" (Sample.put_body "Plan" "B" None Omitted)
                           Sample.put_env))) "open"
    = Some note'
    /\ Note.title note' = "Plan" /\ Note.content note' = "B".
Proof.
  destruct (update_writes_what_was_sent (caps := Sample.caps) Sample.server
              Sample.anyone "open" (Sample.put_body "Plan" "B" None Omitted)
              Sample.put_env eq_refl)
    as (note & note' & title & content & _ & Hfind & Ht & Htitle & Hc
        & Hcontent & _).
  injection Ht as <-. injection Hc as <-. by exists note'.
Defined.

Lemma protection_is_kept_witness :
  exists (srv' : Server) (n' : Note.t),
    run (caps := Sample.caps) Sample.server
      [Session.edit "locked" "B" "s3cret"; Session.edit "locked" "C" "s3cret"]
    = Some srv'
    /\ findOne (notes srv') "locked" = Some n'
    /\ isProtected n' = true.
Proof.
  destruct (run (caps := Sample.caps) Sample.server
              [Session.edit "locked" "B" "s3cret";
               Session.edit "locked" "C" "s3cret"])
    as [srv'|] eqn:Hrun; [|vm_compute in Hrun; discriminate].
  destruct (protection_is_kept (caps := Sample.caps) Sample.server _ srv'
              "locked" Sample.locked_note (fun p salt => eq_refl) Hrun
              eq_refl eq_refl) as (n' & Hfind & Hprot).
  by exists srv', n'.
Defined.


(** ** The note page against the read handler *)

Section Pages.
Context {caps : Capabilities}.



End Pages.

(** ** The forms against the handlers *)

Lemma truthy_trim (s : string) : truthy (trim s) = true -> truthy s = true.
Proof. by destruct s. Qed.

Section FormsProperties.
Context {caps : Capabilities}.

(** An admitted update whose expiration is not refused leaves [updated]
    under the slug. *)
Lemma PUT_admitted_written (srv : Server) (req : Request) (slug : string)
    (body : PutBody.t) (env : PutEnv) (note : Note.t) (t c : string) :
  update_admitted srv req slug body env note t c ->
  resolveExpiresAt (PutBody.expiresAt body) (put_directive_now env) <> Reject ->
  findOne (notes (fst (PUT srv req slug body env))) slug
  = Some (updated note t c body env).
Proof.
  intros Hadm Hres.
  destruct (PUT_admitted srv req slug body env note t c Hadm) as [_ ->].
  destruct Hadm as (_ & _ & _ & _ & _ & _ & Hfind & _ & _).
  pose proof (PUT_apply_spec (notes srv) slug note t c body env Hfind) as Hs.
  destruct (resolveExpiresAt _ _); [apply Hs | apply Hs | done].
Qed.

(** The create form sends what the handler accepts.  A request that the
    create form sends has a title and a content that are not empty even
    after trimming, and the handler refuses it neither as incomplete nor as
    offensive: it ends with 201, or with 400 for the expiration date alone
    (or the allocator, in the model, runs out of fuel). *)
Theorem create_form_passes_validation
    (title content customSlug password expiresAt : string) (now : Z)
    (body0 : PostBody.t) (notes : list Note.t) (env : PostEnv) :
  handleSubmit title content customSlug password expiresAt now = FormSend body0 ->
  truthy (trim title) = true /\ truthy (trim content) = true
  /\ PostBody.title body0 = Some title /\ PostBody.content body0 = Some content
  /\ (POST_body notes body0 env = None
      \/ exists (notes' : list Note.t) (r : Response),
           POST_body notes body0 env = Some (notes', r)
           /\ (status r = 201
               \/ r = message_response 400
                        "Expiration date must be in the future.")).
Proof.
  unfold handleSubmit.
  destruct (isProfane (title +:+ " " +:+ content)) eqn:Hprof; [done|].
  destruct (truthy (trim title)) eqn:Ht; [|done].
  destruct (truthy (trim content)) eqn:Hc; [|done]. simpl.
  intros Hsend.
  assert (Hfields : PostBody.title body0 = Some title
                    /\ PostBody.content body0 = Some content).
  { destruct (truthy expiresAt); [|by injection Hsend as <-].
    destruct (parseDate expiresAt) as [t|]; [|done].
    destruct (t <=? now); [done|]. by injection Hsend as <-. }
  destruct Hfields as [Htitle Hcontent].
  do 2 (split; [done|]). do 2 (split; [done|]).
  unfold POST_body. rewrite Htitle, Hcontent.
  rewrite (truthy_trim _ Ht), (truthy_trim _ Hc), Hprof. simpl.
  destruct (generateUniqueSlug _ _ _ _) as [finalSlug|]; [|by left]. right.
  destruct (PostBody.expiresAt body0) as [s|]; [|by eexists _, _; split; [|left]].
  destruct (truthy s); [|by eexists _, _; split; [|left]].
  destruct (date_gt _ _); eexists _, _; (split; [reflexivity|]);
    [by left | by right].
Qed.

(** The edit form always decides the expiration.  A request that the edit
    form sends never leaves [expiresAt] out: it carries a timestamp, or
    [null] when the expiration field is empty, so saving with an empty
    field removes a stored expiration of a note whose update is admitted.
    A new password is sent only if it was confirmed. *)
Theorem edit_form_decides_expiration
    (title content currentPasswordForUpdate newPassword confirmNewPassword
       expiresAt : string)
    (isProtected0 : bool) (enteredViewPassword : string) (now : Z)
    (body : PutBody.t) :
  handleUpdateSubmit title content currentPasswordForUpdate newPassword
    confirmNewPassword expiresAt isProtected0 enteredViewPassword now
  = FormSend body ->
  PutBody.expiresAt body <> Omitted
  /\ (expiresAt = "" <-> PutBody.expiresAt body = Null)
  /\ (forall p : string,
        PutBody.newPassword body = Some p ->
        p = confirmNewPassword /\ truthy p = true)
  /\ (forall (srv : Server) (req : Request) (slug : string) (env : PutEnv)
             (note : Note.t) (t c : string),
        update_admitted srv req slug body env note t c ->
        expiresAt = "" ->
        exists n' : Note.t,
          findOne (notes (fst (PUT srv req slug body env))) slug = Some n'
          /\ Note.expiresAt n' = None).
Proof.
  unfold handleUpdateSubmit.
  destruct (isProfane _); [done|].
  destruct (negb (truthy (trim title)) || negb (truthy (trim content)));
    [done|].
  destruct (truthy newPassword) eqn:Hnew; simpl.
  - destruct (String.eqb_spec newPassword confirmNewPassword) as [<-|];
      [|done]. simpl.
    destruct (truthy expiresAt) eqn:He.
    + destruct (parseDate expiresAt) as [d|]; [|done].
      destruct (d <=? now); [done|]. intros [= <-]. simpl.
      split; [done|]. split; [split; [intros ->; done | done]|].
      split; [by intros p [= <-]|].
      intros srv req slug env note t c _ ->. done.
    + intros [= <-]. simpl. split; [done|].
      split; [split; [done | by destruct expiresAt]|].
      split; [by intros p [= <-]|].
      intros srv req slug env note t c Hadm _. eexists.
      split; [by apply (PUT_admitted_written _ _ _ _ _ _ _ _ Hadm)|].
      reflexivity.
  - destruct (truthy expiresAt) eqn:He.
    + destruct (parseDate expiresAt) as [d|]; [|done].
      destruct (d <=? now); [done|]. intros [= <-]. simpl.
      split; [done|]. split; [split; [intros ->; done | done]|].
      split; [done|].
      intros srv req slug env note t c _ ->. done.
    + intros [= <-]. simpl. split; [done|].
      split; [split; [done | by destruct expiresAt]|].
      split; [done|].
      intros srv req slug env note t c Hadm _. eexists.
      split; [by apply (PUT_admitted_written _ _ _ _ _ _ _ _ Hadm)|].
      reflexivity.
Qed.


End FormsProperties.

Lemma create_form_passes_validation_witness :
  exists (notes' : list Note.t) (r : Response),
    POST_body (caps := Sample.caps) (notes Sample.server)
      (PostBody.mk (Some "Plan") (Some "A") (Some "") (Some "") None)
      Sample.post_env
    = Some (notes', r)
    /\ status r = 201.
Proof.
  destruct (create_form_passes_validation (caps := Sample.caps)
              "Plan" "A" "" "" "" Sample.today
              (PostBody.mk (Some "Plan") (Some "A") (Some "") (Some "") None)
              (notes Sample.server) Sample.post_env eq_refl)
    as (_ & _ & _ & _ & [Hnone | (notes' & r & Hbody & [H201 | Hdate])]).
  - vm_compute in Hnone. discriminate.
  - by exists notes', r.
  - exfalso. vm_compute in Hbody. injection Hbody as _ Hr. rewrite <- Hr in Hdate.
    discriminate.
Defined.

Lemma edit_form_decides_expiration_witness :
  exists n' : Note.t,
    findOne
      (notes (fst (PUT (caps := Sample.caps) Sample.server Sample.anyone "open"
                     (PutBody.mk (Some "T") (Some "B") (Some "") None Null)
                     Sample.put_env)))
      "open"
    = Some n'
    /\ Note.expiresAt n' = None.
Proof.
  destruct (edit_form_decides_expiration (caps := Sample.caps)
              "T" "B" "" "" "" "" false "" Sample.today
              (PutBody.mk (Some "T") (Some "B") (Some "") None Null) eq_refl)
    as (_ & _ & _ & Hclear).
  apply (Hclear Sample.server Sample.anyone "open" Sample.put_env
           Sample.open_note "T" "B"); [|reflexivity].
  repeat split; reflexivity.
Defined.

(** ** The restore button of the history page *)

Section RestoreByClick.
Context {caps : Capabilities}.



End RestoreByClick.


(** ** The blocks of the history page *)

(** The blocks of the history page.  There is one block per history entry.
    The block of the [k]-th entry (counting from 0, oldest first) stands at
    position [length - 1 - k], is headed "Version k+1" and shows the
    content of that entry as the new text.  Its old text is the content of
    the entry before it (the empty text for the first entry), except for
    the newest entry when the current note was fetched: that one is
    compared with the current content. *)
Theorem panels_by_version (history : list HistoryEntry.t)
    (currentNote : option string) (k : nat) (entry : HistoryEntry.t) :
  history !! k = Some entry ->
  length (panels history currentNote) = length history
  /\ panels history currentNote !! (length history - 1 - k)%nat
     = Some (mkPanel (Z.of_nat k + 1)
               (match currentNote with
                | Some c =>
                    if decide (S k = length history) then c
                    else previous_content history k
                | None => previous_content history k
                end)
               (HistoryEntry.content entry)).
Proof.
  intros Hk. pose proof (lookup_lt_Some _ _ _ Hk) as Hlt.
  unfold panels. split; [by rewrite length_imap, length_reverse|].
  rewrite list_lookup_imap.
  rewrite (reverse_lookup history (length history - 1 - k)) by lia.
  replace (length history - S (length history - 1 - k))%nat with k by lia.
  rewrite Hk. simpl. f_equal. f_equal; [lia|].
  assert (Hprev : match reverse history !! S (length history - 1 - k) with
                  | Some e => HistoryEntry.content e
                  | None => ""
                  end = previous_content history k).
  { destruct k as [|j]; simpl.
    - rewrite lookup_ge_None_2; [done|]. rewrite length_reverse. lia.
    - rewrite reverse_lookup by lia.
      replace (length history - S (S (length history - 1 - S j)))%nat with j
        by lia.
      destruct (lookup_lt_is_Some_2 history j ltac:(lia)) as [e ->]. done. }
  destruct (length history - 1 - k)%nat as [|i] eqn:Hi.
  - destruct currentNote as [c|]; [|exact Hprev].
    destruct (decide (S k = length history)); [done | lia].
  - rewrite Hprev. destruct currentNote as [c|]; [|done].
    destruct (decide (S k = length history)); [lia | done].
Qed.

Lemma panels_by_version_witness :
  panels [HistoryEntry.mk "A" "t1"; HistoryEntry.mk "B" "t2";
          HistoryEntry.mk "C" "t3"] (Some "C") !! 1%nat
  = Some (mkPanel 2 "A" "B").
Proof.
  exact (proj2 (panels_by_version
                  [HistoryEntry.mk "A" "t1"; HistoryEntry.mk "B" "t2";
                   HistoryEntry.mk "C" "t3"] (Some "C") 1
                  (HistoryEntry.mk "B" "t2") eq_refl)).
Defined.

Section TopPanel.
Context {caps : Capabilities}.

(** The first block compares like with like.  For a stored note whose
    content is the content of its last history entry (as it is after any
    sequence of requests), the first block of the history page, headed
    "Changes from Current Version", gets the current content as both its
    old and its new text. *)
Theorem top_panel_compares_equal_texts (n : Note.t) :
  tracks_content n ->
  exists p : Panel,
    panels (shown_history n) (Some (Note.content n)) !! 0%nat = Some p
    /\ oldText p = Note.content n
    /\ newText p = Note.content n
    /\ version p = Z.of_nat (length (Note.history n)).
Proof.
  intros (entry & Hlast & Hcontent).
  rewrite last_lookup in Hlast.
  pose proof (lookup_lt_Some _ _ _ Hlast) as Hlt.
  assert (Hk : shown_history n !! pred (length (Note.history n))
               = Some (HistoryEntry.mk (NoteContent.content entry)
                         (toISOString (NoteContent.timestamp entry)))).
  { unfold shown_history. by rewrite list_lookup_fmap, Hlast. }
  assert (Hlen : length (shown_history n) = length (Note.history n)).
  { unfold shown_history. by rewrite length_map. }
  unfold panels. rewrite list_lookup_imap.
  rewrite (reverse_lookup (shown_history n) 0) by (rewrite Hlen; lia).
  replace (length (shown_history n) - 1)%nat
    with (pred (length (Note.history n))) by (rewrite Hlen; lia).
  rewrite Hk. eexists. split; [reflexivity|]. cbn [oldText newText version].
  split; [done|]. split; [exact Hcontent|]. rewrite Hlen. lia.
Qed.

End TopPanel.

Lemma top_panel_compares_equal_texts_witness :
  exists p : Panel,
    panels (shown_history (caps := Sample.caps) Sample.open_note) (Some "A")
      !! 0%nat = Some p
    /\ oldText p = "A" /\ newText p = "A".
Proof.
  destruct (top_panel_compares_equal_texts (caps := Sample.caps)
              Sample.open_note
              (ex_intro _ (NoteContent.mk "A" Sample.y2010)
                 (conj eq_refl eq_refl)))
    as (p & Hp & Hold & Hnew & _).
  by exists p.
Defined.

(** ** The two read handlers *)

Section ReadHandlers.
Context {caps : Capabilities}.

(** The two reads open and close together.  Past their limiters, the note
    read and the history read treat a request alike: either both refuse it,
    with the same answer (404 for a missing or expired note, 401 for a
    missing or wrong password), or both let it through to the same stored
    note. *)
Theorem read_handlers_agree (notes : list Note.t) (req : Request)
    (slug : string) (now : Z) :
  (GET_body notes req slug now = history_GET_body notes req slug now
   /\ (status (GET_body notes req slug now) = 404
       \/ status (GET_body notes req slug now) = 401))
  \/ exists note : Note.t,
       findOne notes slug = Some note
       /\ expired note now = false
       /\ authorized note (bearerToken req) = true
       /\ GET_body notes req slug now = GET_respond note
       /\ history_GET_body notes req slug now = history_respond note.
Proof.
  unfold GET_body, history_GET_body, authorized.
  destruct (findOne notes slug) as [note|]; [|left; split; [done | by left]].
  destruct (expired note now) eqn:Hexp; [left; split; [done | by left]|].
  destruct (isProtected note) eqn:Hprot;
    [|right; exists note; by rewrite Hexp, Hprot].
  destruct (bearerToken req) as [token|]; [|left; split; [done | by right]].
  destruct (truthy token) eqn:Htok; simpl; [|left; split; [done | by right]].
  destruct (bcrypt_compare token _) eqn:Hcmp; simpl;
    [|left; split; [done | by right]].
  right. exists note. by rewrite ?Hexp, ?Hprot, ?Htok, ?Hcmp.
Qed.

(** The expiration of a create.  Once title, content and the allocator are
    through, a create with an expiration string that does not parse, or
    that parses to a time at or before the creation time, is answered with
    400 and stores nothing; the empty string counts as no expiration and
    the note is created without one. *)
Theorem create_expiration_edges (notes : list Note.t) (body0 : PostBody.t)
    (env : PostEnv) (title content finalSlug s : string) :
  PostBody.title body0 = Some title -> truthy title = true ->
  PostBody.content body0 = Some content -> truthy content = true ->
  isProfane (title +:+ " " +:+ content) = false ->
  generateUniqueSlug (post_fuel env) notes
    (js_or (PostBody.customSlug body0) (Some title)) (post_draw env)
  = Some finalSlug ->
  PostBody.expiresAt body0 = Some s ->
  let refused :=
    Some (notes, message_response 400 "Expiration date must be in the future.") in
  (truthy s = true -> parseDate s = InvalidDate ->
   POST_body notes body0 env = refused)
  /\ (forall t : Z,
        truthy s = true -> parseDate s = ValidDate t ->
        t <= noteCreationTime env ->
        POST_body notes body0 env = refused)
  /\ (s = "" ->
      exists (note : Note.t) (r : Response),
        POST_body notes body0 env = Some (insertOne notes note, r)
        /\ status r = 201
        /\ Note.slug note = finalSlug
        /\ Note.expiresAt note = None).
Proof.
  intros Ht Htt Hc Hct Hprof Hslug Hexp refused. subst refused.
  unfold POST_body. rewrite Ht, Hc, Htt, Hct, Hprof, Hslug, Hexp. simpl.
  split; [|split].
  - intros -> ->. reflexivity.
  - intros t -> -> Hle. simpl.
    destruct (Z.ltb_spec (noteCreationTime env) t); [lia | reflexivity].
  - intros ->. simpl. eexists _, _. split; [reflexivity|]. by repeat split.
Qed.

End ReadHandlers.

Lemma create_expiration_edges_witness :
  POST_body (caps := Sample.caps) (notes Sample.server)
    (PostBody.mk (Some "T") (Some "x") None None (Some "tomorrow"))
    Sample.post_env
  = Some (notes Sample.server,
          message_response 400 "Expiration date must be in the future.").
Proof.
  refine (proj1 (create_expiration_edges (caps := Sample.caps)
                   (notes Sample.server)
                   (PostBody.mk (Some "T") (Some "x") None None
                      (Some "tomorrow"))
                   Sample.post_env "T" "x" "t" "tomorrow"
                   eq_refl eq_refl eq_refl eq_refl eq_refl _ eq_refl)
            eq_refl eq_refl).
  vm_compute. reflexivity.
Defined.

(** ** The cached connection *)

Lemma connect_times_cached (uri dbName : string) (n : nat) (st : Connection)
    (client : MongoClient) (db : Db) :
  cachedClient st = Some client -> cachedDb st = Some db ->
  connect_times uri dbName n st = (st, replicate n (client, db)).
Proof.
  intros Hc Hd. induction n as [|n IH]; [done|].
  cbn [connect_times]. unfold connectToDatabase. rewrite Hc, Hd.
  by rewrite IH.
Qed.

(** One connection serves all calls.  Of any number of calls made one after
    the other since the module was loaded, the first makes the only client
    and every call returns that client and its database handle. *)
Theorem connection_is_reused (uri dbName : string) (n : nat) :
  let first := mkMongoClient uri 0 in
  connect_times uri dbName (S n) not_connected
  = (mkConnection (Some first) (Some (mkDb first dbName)) 1,
     replicate (S n) (first, mkDb first dbName)).
Proof.
  cbv zeta. cbn [connect_times]. unfold connectToDatabase at 1. simpl.
  by rewrite (connect_times_cached uri dbName n _ (mkMongoClient uri 0)
                (mkDb (mkMongoClient uri 0) dbName)).
Qed.
